(** * consul-alerting: the bootstrap and the shutdown path of [main.go]

    A shallow embedding of [main], [shutdown] and [registerTestServices].
    The process is sequential (one main goroutine); everything it does to
    the outside (logger, flag package, registry client, goroutine starts,
    channel sends, [os.Exit]) is recorded as an event of a trace, and
    everything the outside answers is read from a [World]. *)

From Stdlib Require Import ZArith.
From stdpp Require Import base list strings gmap fin_maps.

Local Open Scope Z_scope.

(** ** Go's [int]: 64-bit two's complement *)

Module GoInt.
Definition wrap (z : Z) : Z := (z + 2 ^ 63) `mod` 2 ^ 64 - 2 ^ 63.
Definition add (a b : Z) : Z := wrap (a + b).
Definition mul (a b : Z) : Z := wrap (a * b).
Definition in_range (z : Z) : Prop := - 2 ^ 63 ≤ z < 2 ^ 63.
End GoInt.

(** ** Data *)

(** logrus levels, in the library's order. *)
Inductive Level :=
  PanicLevel | FatalLevel | ErrorLevel | WarnLevel | InfoLevel | DebugLevel.

(** A Go [error] is kept as its message. *)
Definition error := string.

(** [syscall.Signal] is an integer; the three constants are those of
    [syscall] on Linux. *)
Definition Signal := Z.
Definition SIGINT : Signal := 2.
Definition SIGQUIT : Signal := 3.
Definition SIGTERM : Signal := 15.

(** A channel is known by the order of its [make] in the process. *)
Definition Chan := nat.

(** The handle [api.NewClient] returns. *)
Record Client := { Address : string }.

(** Modelled from the spec: the alert handlers [ParseConfig] returns are
    declared outside main.go; main only passes them on, so a handler is
    kept as its name. *)
Definition Handlers := list string.

(** Modelled from the spec: [ServiceConfig] is declared outside main.go;
    these are the fields main reads (the per-service change threshold, the
    "watch tags separately" flag and the ignore-list of tags). *)
Module ServiceConfig.
Record t := {
  ChangeThreshold : Z;
  DistinctTags : bool;
  IgnoredTags : list string
}.
End ServiceConfig.

(** Modelled from the spec: [Config] is declared outside main.go; these
    are the fields main reads. *)
Module Config.
Record t := {
  LogLevel : string;
  ConsulAddress : string;
  DevMode : bool;
  GlobalMode : bool;
  ChangeThreshold : Z
}.
End Config.

(** Modelled from the spec: [WatchOptions] is declared outside main.go;
    these are the four fields main fills in. A [stopCh] left out of the
    composite literal is Go's nil channel, [None]. *)
Module WatchOptions.
Record t := {
  changeThreshold : Z;
  client : Client;
  handlers : Handlers;
  stopCh : option Chan
}.
End WatchOptions.

(** [type ShutdownOpts struct { stopCh chan struct{}; count int }] *)
Module ShutdownOpts.
Record t := {
  stopCh : Chan;
  count : Z
}.
End ShutdownOpts.

(** The part of [api.AgentService] main reads. *)
Record AgentService := { Service : string; Tags : list string }.

(** [api.AgentServiceCheck], [api.AgentCheckRegistration] and
    [api.AgentServiceRegistration], with the fields main sets. *)
Record AgentServiceCheck := { Script : string; Interval : string }.

Record AgentCheckRegistration := {
  check_Name : string;
  check_AgentServiceCheck : AgentServiceCheck
}.

Record AgentServiceRegistration := {
  svc_Name : string;
  svc_Tags : list string;
  svc_Port : Z;
  svc_Check : AgentServiceCheck
}.

(** ** Events *)

(** The goroutines main starts. *)
Inductive Goroutine :=
  | WatchService (service tag : string) (opts : WatchOptions.t)
  | WatchNode (node : string) (opts : WatchOptions.t).

(** Requests to the registry through the client. *)
Inductive ApiCall :=
  | StatusLeader
  | CatalogServices
  | CatalogNodes
  | AgentServices
  | AgentNodeName
  | CheckRegister (r : AgentCheckRegistration)
  | ServiceRegister (r : AgentServiceRegistration)
  | CheckDeregister (checkID : string)
  | ServiceDeregister (serviceID : string).

(** An argument of a log call. *)
Inductive LogArg :=
  | AStr (s : string)
  | AStrs (l : list string)
  | ALevel (l : Level)
  | AErr (e : error).

Inductive Event :=
  | EvSetFormatter
  | EvSetLevel (l : Level)
  | EvFlagError
  | EvPrint (s : string)
  | EvLog (l : Level) (msg : string) (args : list LogArg)
  | EvParseConfig (path : string)
  | EvNewClient (address : string)
  | EvCall (c : Client) (call : ApiCall)
  | EvSleep (seconds : Z)
  | EvMakeChan (ch : Chan)
  | EvGo (g : Goroutine)
  | EvNotify
  | EvSignal (sig : Signal)
  | EvSend (ch : Chan).

(** How a run of the main goroutine stands at the end of its trace. *)
Inductive Status :=
  | Exited (code : Z)
  | Retrying      (* still in the leader loop when the fuel ran out *)
  | BlockedOnSend (* a send on the stop channel that nobody receives *)
  | Waiting.      (* in [for sig := range c], no signal pending *)

(** ** The process monad: a trace, and either a value or the end *)

Inductive Step (A : Type) :=
  | Next (a : A)
  | Halt (s : Status).
Arguments Next {A} a.
Arguments Halt {A} s.

Definition Proc (A : Type) : Type := (list Event * Step A)%type.

#[global] Instance Proc_ret : MRet Proc := λ A a, ([], Next a).

#[global] Instance Proc_bind : MBind Proc := λ A B f m,
  match m with
  | (tr, Next a) => let '(tr', r) := f a in (tr ++ tr', r)
  | (tr, Halt s) => (tr, Halt s)
  end.

Definition emit (e : Event) : Proc unit := ([e], Next tt).
Definition halt {A} (s : Status) : Proc A := ([], Halt s).

Notation "e1 ;;; e2" := (mbind (M := Proc) (λ _ : unit, e2) e1)
  (at level 100, e2 at level 200, right associativity).

(** [os.Exit(code)] *)
Definition os_Exit {A} (code : Z) : Proc A := halt (Exited code).

(** Calls to the logger: [msg] is the format of the [f] variants or the
    leading string argument of the others ([""] when there is none), [args]
    the arguments after it. [log.Fatal] logs and then calls [os.Exit(1)]. *)
Definition log (l : Level) (msg : string) (args : list LogArg) : Proc unit :=
  emit (EvLog l msg args).
Definition log_Fatal {A} (msg : string) (args : list LogArg) : Proc A :=
  log FatalLevel msg args ;;; os_Exit 1.

Definition trace {A} (p : Proc A) : list Event := p.1.
Definition outcome {A} (p : Proc A) : Step A := p.2.

(** ** The world outside main.go *)

(** Everything main asks of its collaborators: the flag package, the rest
    of the repository ([ParseConfig], [getServiceConfig]), logrus, the
    registry behind the client, the Go runtime (the order in which a
    [range] walks a map, which the language leaves open), the operating
    system (the signals delivered on [c]) and the watch goroutines (how
    many receives they perform on the stop channel).

    [flag_Parse] is [None] when the flag package rejects the command line
    (it then prints its own message and exits with status 2); otherwise it
    holds the values of [help] and [config_path] after [flag.Parse()].
    [Leader i] is the error of the [i]-th call of
    [client.Status().Leader()], counted from 0. *)
Record World := {
  flag_Parse : option (bool * string);
  ParseConfig : string → (Config.t * Handlers) + error;
  getServiceConfig : Config.t → string → option ServiceConfig.t;
  ParseLevel : string → Level * option error;
  NewClient : string → option error;
  Leader : nat → option error;
  Catalog_Services : gmap string (list string) + error;
  Catalog_Nodes : list string + error;
  Agent_Services : gmap string AgentService + error;
  Agent_NodeName : string + error;
  range_services : gmap string (list string) → list (string * list string);
  range_services_perm : ∀ m, range_services m ≡ₚ map_to_list m;
  range_agent : gmap string AgentService → list (string * AgentService);
  range_agent_perm : ∀ m, range_agent m ≡ₚ map_to_list m;
  signals : list Signal;
  stop_receives : nat
}.

(** ** Helpers of the repository that main.go calls *)

(** Modelled from the spec: [contains] is declared outside main.go; with
    the spec's "ignore-list of tags" it is the membership test of a string
    in a slice, a loop over the slice comparing with [==]. *)
Fixpoint contains (s : list string) (e : string) : bool :=
  match s with
  | [] => false
  | a :: rest => if String.eqb a e then true else contains rest e
  end.

(** ** Loops *)

(** [for _, x := range l { s = body(s, x) }] over a slice, or over a map
    once the runtime has fixed the order. *)
Fixpoint for_range {A S : Type} (body : S → A → Proc S) (l : list A) (s : S)
  : Proc S :=
  match l with
  | [] => mret s
  | x :: rest => s' ← body s x; for_range body rest s'
  end.

(** [for i := 0; i < bound; i++ { ch <- struct{}{} }] with [n] iterations
    left to do. The channel is unbuffered: a send completes when a
    goroutine receives, and [ready] receives are still to come. *)
Fixpoint send_loop (ch : Chan) (n ready : nat) : Proc unit :=
  match n with
  | O => mret tt
  | S n' =>
      match ready with
      | O => halt BlockedOnSend
      | S ready' => emit (EvSend ch) ;;; send_loop ch n' ready'
      end
  end.

(** ** main.go *)

Definition usage : string :=
"Usage: consul-alerting [--help] -config=/path/to/config.hcl

Options:

    -config=<path>    Sets the path to a configuration file on disk.
".

Definition exit_script : string := "exit $(shuf -i 0-2 -n 1)".

(** [func registerTestServices(client *api.Client)] *)
Definition registerTestServices (client : Client) : Proc unit :=
  emit (EvCall client (CheckRegister {|
    check_Name := "memory usage";
    check_AgentServiceCheck := {| Script := exit_script; Interval := "20s" |}
  |})) ;;;
  emit (EvCall client (ServiceRegister {|
    svc_Name := "redis";
    svc_Tags := ["alpha"; "beta"];
    svc_Port := 2000;
    svc_Check := {| Script := exit_script; Interval := "10s" |}
  |})) ;;;
  emit (EvCall client (ServiceRegister {|
    svc_Name := "nginx";
    svc_Tags := ["gamma"; "delta"];
    svc_Port := 3000;
    svc_Check := {| Script := exit_script; Interval := "8s" |}
  |})).

(** [func shutdown(client *api.Client, config *Config, opts *ShutdownOpts)] *)
Definition shutdown (w : World) (client : Client) (config : Config.t)
    (opts : ShutdownOpts.t) : Proc unit :=
  log InfoLevel "Got interrupt signal, shutting down" [] ;;;
  (if Config.DevMode config then
     emit (EvCall client (CheckDeregister "memory usage")) ;;;
     emit (EvCall client (ServiceDeregister "redis")) ;;;
     emit (EvCall client (ServiceDeregister "nginx"))
   else mret tt) ;;;
  log InfoLevel "Releasing locks..." [] ;;;
  send_loop (ShutdownOpts.stopCh opts)
            (Z.to_nat (GoInt.mul (ShutdownOpts.count opts) 2))
            (stop_receives w) ;;;
  os_Exit 0.

(** [shutdownOpts.count++] *)
Definition count_incr (so : ShutdownOpts.t) : ShutdownOpts.t :=
  {| ShutdownOpts.stopCh := ShutdownOpts.stopCh so;
     ShutdownOpts.count := GoInt.add (ShutdownOpts.count so) 1 |}.

(** What main has in hand when discovery is over (line 123). *)
Record Booted := {
  b_config : Config.t;
  b_handlers : Handlers;
  b_client : Client;
  b_services : gmap string (list string);
  b_nodes : list string
}.

(** Lines 67-75: the leader loop. It has no bound of its own; [fuel]
    bounds the number of attempts looked at, [i] counts those made. *)
Fixpoint connect (fuel : nat) (w : World) (client : Client) (i : nat)
  : Proc unit :=
  match fuel with
  | O => halt Retrying
  | S fuel' =>
      emit (EvCall client StatusLeader) ;;;
      match Leader w i with
      | None => mret tt
      | Some err =>
          log ErrorLevel "Error connecting to Consul: " [AErr err] ;;;
          log ErrorLevel "Retrying in 10s..." [] ;;;
          emit (EvSleep 10) ;;;
          connect fuel' w client (S i)
      end
  end.

(** Lines 87-123: the services and the nodes to watch. *)
Definition discover (w : World) (config : Config.t) (client : Client)
  : Proc (gmap string (list string) * list string) :=
  if Config.GlobalMode config then
    log InfoLevel "Discovering services to watch from catalog" [] ;;;
    emit (EvCall client CatalogServices) ;;;
    match Catalog_Services w with
    | inr err => log_Fatal "Error initializing services: " [AErr err]
    | inl services =>
        log InfoLevel "Discovering nodes to watch from catalog" [] ;;;
        emit (EvCall client CatalogNodes) ;;;
        match Catalog_Nodes w with
        | inl allNodes => mret (services, allNodes)
        | inr err =>
            log ErrorLevel "Error getting nodes from catalog: %s" [AErr err] ;;;
            mret (services, [])
        end
    end
  else
    log InfoLevel "Discovering services to watch on local agent" [] ;;;
    emit (EvCall client AgentServices) ;;;
    match Agent_Services w with
    | inr err => log_Fatal "Error initializing services: " [AErr err]
    | inl serviceMap =>
        let services :=
          foldl (λ (services : gmap string (list string)) kv,
                   <[Service kv.2 := Tags kv.2]> services)
                ∅ (range_agent w serviceMap) in
        log InfoLevel "Watching local node" [] ;;;
        emit (EvCall client AgentNodeName) ;;;
        match Agent_NodeName w with
        | inl node => mret (services, [node])
        | inr err =>
            log ErrorLevel "Error getting local node name: %s" [AErr err] ;;;
            mret (services, [])
        end
    end.

(** Lines 24-66: flags, configuration, log level and client; nothing here
    talks to the registry. *)
Definition preflight (w : World) : Proc (Config.t * Handlers * Client) :=
  emit EvSetFormatter ;;;
  emit (EvSetLevel DebugLevel) ;;;
  '(help, config_path) ← match flag_Parse w with
                         | Some fl => mret fl
                         | None => emit EvFlagError ;;; os_Exit 2
                         end;
  (if help || bool_decide (config_path = "")
   then emit (EvPrint usage) ;;; os_Exit 0
   else mret tt) ;;;
  emit (EvParseConfig config_path) ;;;
  '(config, handlers) ← match ParseConfig w config_path with
                        | inl ch => mret ch
                        | inr err => log ErrorLevel "" [AErr err] ;;; os_Exit 2
                        end;
  level ← (let '(level, err) := ParseLevel w (Config.LogLevel config) in
           match err with
           | Some err =>
               log ErrorLevel "Error setting loglevel '%s': %s"
                   [ALevel level; AErr err] ;;;
               os_Exit 2
           | None => mret level
           end);
  emit (EvSetLevel level) ;;;
  emit (EvNewClient (Config.ConsulAddress config)) ;;;
  client ← match NewClient w (Config.ConsulAddress config) with
           | Some err => log_Fatal "Error initializing client: " [AErr err]
           | None => mret {| Address := Config.ConsulAddress config |}
           end;
  mret (config, handlers, client).

(** Lines 24-123. *)
Definition startup (fuel : nat) (w : World) : Proc Booted :=
  '(config, handlers, client) ← preflight w;
  connect fuel w client 0 ;;;
  (if Config.DevMode config then registerTestServices client else mret tt) ;;;
  (if Config.GlobalMode config
   then log InfoLevel "Running in global mode, monitoring all nodes/services" []
   else log InfoLevel
          "Running in local mode, monitoring local agent's nodes/services" []) ;;;
  '(services, nodes) ← discover w config client;
  mret {| b_config := config; b_handlers := handlers; b_client := client;
          b_services := services; b_nodes := nodes |}.

(** Lines 136-146: one watch per tag that is not ignored. *)
Definition watch_tag (sc : ServiceConfig.t) (b : Booted) (service : string)
    (so : ShutdownOpts.t) (tag : string) : Proc ShutdownOpts.t :=
  if contains (ServiceConfig.IgnoredTags sc) tag then mret so
  else
    emit (EvGo (WatchService service tag {|
      WatchOptions.changeThreshold := ServiceConfig.ChangeThreshold sc;
      WatchOptions.client := b_client b;
      WatchOptions.handlers := b_handlers b;
      WatchOptions.stopCh := Some (ShutdownOpts.stopCh so)
    |})) ;;;
    mret (count_incr so).

(** Lines 148-154: one watch for the whole service. *)
Definition watch_whole (b : Booted) (service : string) (so : ShutdownOpts.t)
  : Proc ShutdownOpts.t :=
  emit (EvGo (WatchService service "" {|
    WatchOptions.changeThreshold := Config.ChangeThreshold (b_config b);
    WatchOptions.client := b_client b;
    WatchOptions.handlers := b_handlers b;
    WatchOptions.stopCh := Some (ShutdownOpts.stopCh so)
  |})) ;;;
  mret (count_incr so).

(** Lines 130-156: the body of [for service, tags := range services]. *)
Definition watch_service (w : World) (b : Booted) (so : ShutdownOpts.t)
    (kv : string * list string) : Proc ShutdownOpts.t :=
  let '(service, tags) := kv in
  log InfoLevel "Service found: %s, tags: %v" [AStr service; AStrs tags] ;;;
  match getServiceConfig w (b_config b) service with
  | Some serviceConfig =>
      if bool_decide (0 < length tags)%nat
         && ServiceConfig.DistinctTags serviceConfig
      then for_range (watch_tag serviceConfig b service) tags so
      else watch_whole b service so
  | None => watch_whole b service so
  end.

(** Lines 160-171: the body of [for _, node := range nodes]. *)
Definition watch_node (b : Booted) (so : ShutdownOpts.t) (node : string)
  : Proc ShutdownOpts.t :=
  let opts stop := {|
    WatchOptions.changeThreshold := Config.ChangeThreshold (b_config b);
    WatchOptions.client := b_client b;
    WatchOptions.handlers := b_handlers b;
    WatchOptions.stopCh := stop
  |} in
  if Config.GlobalMode (b_config b) then
    emit (EvGo (WatchNode node (opts (Some (ShutdownOpts.stopCh so))))) ;;;
    mret (count_incr so)
  else
    emit (EvGo (WatchNode node (opts None))) ;;;
    mret so.

(** Lines 125-171. *)
Definition start_watches (w : World) (b : Booted) : Proc ShutdownOpts.t :=
  emit (EvMakeChan 0%nat) ;;;
  so ← for_range (watch_service w b) (range_services w (b_services b))
         {| ShutdownOpts.stopCh := 0%nat; ShutdownOpts.count := 0 |};
  log InfoLevel "Nodes found: %v" [AStrs (b_nodes b)] ;;;
  for_range (watch_node b) (b_nodes b) so.

(** Lines 179-191: the [switch sig]. *)
Definition handle_signal (w : World) (b : Booted) (opts : ShutdownOpts.t)
    (sig : Signal) : Proc unit :=
  if decide (sig = SIGINT) then shutdown w (b_client b) (b_config b) opts
  else if decide (sig = SIGTERM) then shutdown w (b_client b) (b_config b) opts
  else if decide (sig = SIGQUIT) then shutdown w (b_client b) (b_config b) opts
  else log ErrorLevel "Unknown signal." [].

(** Lines 178-192: [for sig := range c] over the signals still to be
    delivered; when none is left the loop waits on [c]. *)
Fixpoint signal_loop (w : World) (b : Booted) (opts : ShutdownOpts.t)
    (sigs : list Signal) : Proc unit :=
  match sigs with
  | [] => halt Waiting
  | sig :: rest =>
      emit (EvSignal sig) ;;;
      handle_signal w b opts sig ;;;
      signal_loop w b opts rest
  end.

(** Lines 173-192. *)
Definition serve_signals (w : World) (b : Booted) (opts : ShutdownOpts.t)
  : Proc unit :=
  emit (EvMakeChan 1%nat) ;;;
  emit EvNotify ;;;
  signal_loop w b opts (signals w).

(** [func main()] *)
Definition main (fuel : nat) (w : World) : Proc unit :=
  b ← startup fuel w;
  shutdownOpts ← start_watches w b;
  serve_signals w b shutdownOpts.

(** ** Reading a trace *)

Definition opts_of (g : Goroutine) : WatchOptions.t :=
  match g with
  | WatchService _ _ opts => opts
  | WatchNode _ opts => opts
  end.

(** The goroutines started, in order. *)
Definition spawned (tr : list Event) : list Goroutine :=
  omap (λ e, match e with EvGo g => Some g | _ => None end) tr.

(** The requests made to the registry, in order. *)
Definition calls (tr : list Event) : list ApiCall :=
  omap (λ e, match e with EvCall _ c => Some c | _ => None end) tr.

(** The channels of the sends completed, in order. *)
Definition sends (tr : list Event) : list Chan :=
  omap (λ e, match e with EvSend ch => Some ch | _ => None end) tr.

(** A watch is registered with the shutdown path when it was handed
    the stop channel. *)
Definition registered (ch : Chan) (g : Goroutine) : bool :=
  bool_decide (WatchOptions.stopCh (opts_of g) = Some ch).

Definition is_service_watch (g : Goroutine) : bool :=
  match g with WatchService _ _ _ => true | WatchNode _ _ => false end.

(** What a watch loop watches: a service (tag [""]), a service scoped to
    a tag, or a node. *)
Inductive Entity :=
  | EService (service tag : string)
  | ENode (node : string).

Definition entity_of (g : Goroutine) : Entity :=
  match g with
  | WatchService service tag _ => EService service tag
  | WatchNode node _ => ENode node
  end.

#[global] Instance Entity_eq_dec : EqDecision Entity.
Proof. solve_decision. Defined.

(** The test fixtures of DevMode. A registration that names no ID is
    filed by the agent under its Name. *)
Inductive Fixture :=
  | FCheck (id : string)
  | FService (id : string).

#[global] Instance Fixture_eq_dec : EqDecision Fixture.
Proof. solve_decision. Defined.

Definition fixtures_registered (tr : list Event) : list Fixture :=
  omap (λ c, match c with
             | CheckRegister r => Some (FCheck (check_Name r))
             | ServiceRegister r => Some (FService (svc_Name r))
             | _ => None
             end) (calls tr).

Definition fixtures_deregistered (tr : list Event) : list Fixture :=
  omap (λ c, match c with
             | CheckDeregister id => Some (FCheck id)
             | ServiceDeregister id => Some (FService id)
             | _ => None
             end) (calls tr).

(** The agent's tables of checks and services, by ID, and what the
    register and deregister requests do to them. *)
Record Registry := { checks : gset string; services : gset string }.

Definition apply_call (r : Registry) (c : ApiCall) : Registry :=
  match c with
  | CheckRegister reg =>
      {| checks := {[check_Name reg]} ∪ checks r; services := services r |}
  | ServiceRegister reg =>
      {| checks := checks r; services := {[svc_Name reg]} ∪ services r |}
  | CheckDeregister id =>
      {| checks := checks r ∖ {[id]}; services := services r |}
  | ServiceDeregister id =>
      {| checks := checks r; services := services r ∖ {[id]} |}
  | _ => r
  end.

Definition replay (tr : list Event) (r : Registry) : Registry :=
  foldl apply_call r (calls tr).

(** ** Properties every event of a run can have *)

(** Every event of the run has the property. *)
Definition all_events {A} (P : Event → Prop) (p : Proc A) : Prop :=
  Forall P (trace p).

(** The event is not the start of a goroutine; not a request to the
    registry; not the registration or deregistration of a fixture. *)
Definition not_go (e : Event) : Prop :=
  match e with EvGo _ => False | _ => True end.

Definition not_call (e : Event) : Prop :=
  match e with EvCall _ _ => False | _ => True end.

Definition not_fixture (e : Event) : Prop :=
  match e with
  | EvCall _ (CheckRegister _ | ServiceRegister _
              | CheckDeregister _ | ServiceDeregister _) => False
  | _ => True
  end.

(** ** The watches of a run, as lists *)

(** [n] times [shutdownOpts.count++]. *)
Definition incr_by (n : nat) (so : ShutdownOpts.t) : ShutdownOpts.t :=
  Nat.iter n count_incr so.

(** The options main gives a watch. *)
Definition watch_opts (b : Booted) (threshold : Z) (stop : option Chan)
  : WatchOptions.t :=
  {| WatchOptions.changeThreshold := threshold;
     WatchOptions.client := b_client b;
     WatchOptions.handlers := b_handlers b;
     WatchOptions.stopCh := stop |}.

(** The watches main starts for one tag, for one service and for one
    node, as lists. *)
Definition tag_watch (sc : ServiceConfig.t) (b : Booted) (service : string)
    (ch : Chan) (tag : string) : Goroutine :=
  WatchService service tag
    (watch_opts b (ServiceConfig.ChangeThreshold sc) (Some ch)).

Definition tag_watches (sc : ServiceConfig.t) (b : Booted) (service : string)
    (ch : Chan) (tags : list string) : list Goroutine :=
  tag_watch sc b service ch <$>
    filter (λ tag, tag ∉ ServiceConfig.IgnoredTags sc) tags.

Definition whole_watch (b : Booted) (service : string) (ch : Chan)
  : Goroutine :=
  WatchService service ""
    (watch_opts b (Config.ChangeThreshold (b_config b)) (Some ch)).

Definition service_watches (w : World) (b : Booted) (ch : Chan)
    (kv : string * list string) : list Goroutine :=
  match getServiceConfig w (b_config b) kv.1 with
  | Some sc =>
      if bool_decide (0 < length kv.2)%nat && ServiceConfig.DistinctTags sc
      then tag_watches sc b kv.1 ch kv.2
      else [whole_watch b kv.1 ch]
  | None => [whole_watch b kv.1 ch]
  end.

Definition node_watch (b : Booted) (ch : Chan) (node : string) : Goroutine :=
  WatchNode node
    (watch_opts b (Config.ChangeThreshold (b_config b))
       (if Config.GlobalMode (b_config b) then Some ch else None)).

(** What every loop body of [start_watches] does: it starts the watches
    [gs] and counts those it handed the stop channel. *)
Definition starts {A} (body : ShutdownOpts.t → A → Proc ShutdownOpts.t)
    (gs : Chan → A → list Goroutine) : Prop :=
  ∀ so x, ∃ tr,
    let ch := ShutdownOpts.stopCh so in
    body so x =
      (tr, Next (incr_by (length (filter (λ g, registered ch g) (gs ch x))) so))
    ∧ spawned tr = gs ch x.

(** The watches [start_watches] starts: those of the services, in the
    order the runtime walks the map, then those of the nodes. *)
Definition watches (w : World) (b : Booted) : list Goroutine :=
  (range_services w (b_services b) ≫= service_watches w b 0%nat)
  ++ (node_watch b 0%nat <$> b_nodes b).

(** The goroutine is a service watch of [service]. *)
Definition watches_service (service : string) (g : Goroutine) : bool :=
  match g with
  | WatchService s _ _ => bool_decide (s = service)
  | WatchNode _ _ => false
  end.

(** ** The shutdown path, as a trace *)

(** The deregistrations of [shutdown]. *)
Definition deregistrations (client : Client) (config : Config.t) : list Event :=
  if Config.DevMode config then
    [EvCall client (CheckDeregister "memory usage");
     EvCall client (ServiceDeregister "redis");
     EvCall client (ServiceDeregister "nginx")]
  else [].

(** The number of iterations of the send loop of [shutdown]. *)
Definition stop_signals (opts : ShutdownOpts.t) : nat :=
  Z.to_nat (GoInt.mul (ShutdownOpts.count opts) 2).

(** The log entries of the signals the switch does not know. *)
Definition unknown_signals (sigs : list Signal) : list Event :=
  sigs ≫= λ sig, [EvSignal sig; EvLog ErrorLevel "Unknown signal." []].

(** The three fixtures of [registerTestServices]. *)
Definition dev_fixtures : list Fixture :=
  [FCheck "memory usage"; FService "redis"; FService "nginx"].

(** ** Concrete worlds *)

Definition cfg (global dev : bool) : Config.t :=
  {| Config.LogLevel := "info";
     Config.ConsulAddress := "127.0.0.1:8500";
     Config.DevMode := dev;
     Config.GlobalMode := global;
     Config.ChangeThreshold := 60 |}.

(** A world in which the command line names a configuration file, the
    file parses to [cfg global dev] with one handler, the log level is
    valid and the client can be built. *)
Definition mk_world (global dev : bool)
    (svc_cfg : string → option ServiceConfig.t)
    (leader : nat → option error)
    (catalog : gmap string (list string)) (nodes : list string)
    (agent : gmap string AgentService) (node_name : string)
    (sigs : list Signal) (receives : nat) : World :=
  {| flag_Parse := Some (false, "/etc/consul-alerting.hcl");
     ParseConfig := λ _, inl (cfg global dev, ["stdout"]);
     getServiceConfig := λ _ service, svc_cfg service;
     ParseLevel := λ _, (InfoLevel, None);
     NewClient := λ _, None;
     Leader := leader;
     Catalog_Services := inl catalog;
     Catalog_Nodes := inl nodes;
     Agent_Services := inl agent;
     Agent_NodeName := inl node_name;
     range_services := map_to_list;
     range_services_perm := λ m, Permutation_refl _;
     range_agent := map_to_list;
     range_agent_perm := λ m, Permutation_refl _;
     signals := sigs;
     stop_receives := receives |}.

Definition always_up : nat → option error := λ _, None.
Definition never_up : nat → option error := λ _, Some "connection refused".
Definition no_svc_cfg : string → option ServiceConfig.t := λ _, None.

(** The result of the start-up, when it gets through. *)
Definition booted (fuel : nat) (w : World) : option Booted :=
  match outcome (startup fuel w) with
  | Next b => Some b
  | Halt _ => None
  end.

(** Fleet-wide mode with DevMode: two services, [redis] watched tag by
    tag with [beta] ignored, two nodes; SIGHUP then SIGTERM arrive and
    the watches receive every stop signal. *)
Definition redis_cfg : ServiceConfig.t :=
  {| ServiceConfig.ChangeThreshold := 30;
     ServiceConfig.DistinctTags := true;
     ServiceConfig.IgnoredTags := ["beta"] |}.

Definition w_fleet : World :=
  mk_world true true
    (λ service, if String.eqb service "redis" then Some redis_cfg else None)
    always_up
    (<["redis" := ["alpha"; "beta"]]> (<["nginx" := ["gamma"; "delta"]]> ∅))
    ["node1"; "node2"] ∅ "node1" [1; SIGTERM] 100.

(** What the start-up hands on in [w_fleet]. *)
Definition b_fleet : Booted :=
  {| b_config := cfg true true;
     b_handlers := ["stdout"];
     b_client := {| Address := "127.0.0.1:8500" |};
     b_services :=
       <["redis" := ["alpha"; "beta"]]> (<["nginx" := ["gamma"; "delta"]]> ∅);
     b_nodes := ["node1"; "node2"] |}.

(** Local mode, no service on the agent, the local node watched. *)
Definition w_local : World :=
  mk_world false false no_svc_cfg always_up ∅ [] ∅ "node1" [] 0.

(** The registry never answers. *)
Definition w_unreachable : World :=
  mk_world true false no_svc_cfg never_up ∅ [] ∅ "node1" [SIGTERM] 0.

(** The catalog lists a tag twice for a service watched tag by tag. *)
Definition web_distinct : ServiceConfig.t :=
  {| ServiceConfig.ChangeThreshold := 30;
     ServiceConfig.DistinctTags := true;
     ServiceConfig.IgnoredTags := [] |}.

Definition w_repeated_tag : World :=
  mk_world true false (λ _, Some web_distinct) always_up
    {["web" := ["a"; "a"]]} [] ∅ "node1" [] 0.

(** The catalog lists tag [v1] twice for a service watched tag by tag
    with [v2] ignored. *)
Definition api_distinct : ServiceConfig.t :=
  {| ServiceConfig.ChangeThreshold := 45;
     ServiceConfig.DistinctTags := true;
     ServiceConfig.IgnoredTags := ["v2"] |}.

Definition w_tag_listed_twice : World :=
  mk_world true false (λ _, Some api_distinct) always_up
    {["api" := ["v1"; "v2"; "v1"]]} [] ∅ "node1" [] 0.

(** A service with an override of 30 that is watched as a whole, under a
    global threshold of 60. *)
Definition web_whole : ServiceConfig.t :=
  {| ServiceConfig.ChangeThreshold := 30;
     ServiceConfig.DistinctTags := false;
     ServiceConfig.IgnoredTags := [] |}.

Definition w_override : World :=
  mk_world true false (λ _, Some web_whole) always_up
    {["web" := ["a"]]} [] ∅ "node1" [] 0.

(** One service watched as a whole, so two stop signals to send at
    shutdown; SIGTERM arrives and the watches receive only once. *)
Definition w_one_receive : World :=
  mk_world true false no_svc_cfg always_up
    {["web" := ["a"]]} [] ∅ "node1" [SIGTERM] 1.

(** An agent on which a service is already registered under the ID
    [redis]. *)
Definition registry_with_redis : Registry :=
  {| checks := ∅; services := {["redis"]} |}.

(** [--help] on the command line. *)
Definition w_help : World :=
  {| flag_Parse := Some (true, "");
     ParseConfig := λ _, inr "no such file";
     getServiceConfig := λ _ _, None;
     ParseLevel := λ _, (PanicLevel, Some "not a valid logrus Level");
     NewClient := λ _, Some "bad address";
     Leader := never_up;
     Catalog_Services := inr "connection refused";
     Catalog_Nodes := inr "connection refused";
     Agent_Services := inr "connection refused";
     Agent_NodeName := inr "connection refused";
     range_services := map_to_list;
     range_services_perm := λ m, Permutation_refl _;
     range_agent := map_to_list;
     range_agent_perm := λ m, Permutation_refl _;
     signals := [];
     stop_receives := 0 |}.

(** The catalog lists a node twice. *)
Definition w_repeated_node : World :=
  mk_world true false no_svc_cfg always_up ∅ ["node1"; "node1"] ∅ "node1" [] 0.

(** ** More ways to read a run *)

(** The lengths of the sleeps, in seconds, in order. *)
Definition sleeps (tr : list Event) : list Z :=
  omap (λ e, match e with EvSleep s => Some s | _ => None end) tr.

(** The event is not a sleep. *)
Definition not_sleep (e : Event) : Prop :=
  match e with EvSleep _ => False | _ => True end.

(** The event is not a send; not a deregistration. *)
Definition not_send (e : Event) : Prop :=
  match e with EvSend _ => False | _ => True end.

Definition not_deregistration (e : Event) : Prop :=
  match e with
  | EvCall _ (CheckDeregister _ | ServiceDeregister _) => False
  | _ => True
  end.

(** If the run ends in an exit, its status is one of [codes]. *)
Definition exits_within {A} (codes : list Z) (p : Proc A) : Prop :=
  match outcome p with
  | Halt (Exited code) => code ∈ codes
  | _ => True
  end.

(** The run does not hand control back to what follows it. *)
Definition never_returns {A} (p : Proc A) : Prop :=
  match outcome p with
  | Next _ => False
  | Halt _ => True
  end.

(** The events of one failed attempt of the leader loop. *)
Definition failed_attempt (client : Client) (err : error) : list Event :=
  [EvCall client StatusLeader;
   EvLog ErrorLevel "Error connecting to Consul: " [AErr err];
   EvLog ErrorLevel "Retrying in 10s..." [];
   EvSleep 10].

(** ** More concrete worlds *)

(** A world that differs from [w] in what the repository, logrus and
    the client library answer before the registry is contacted. *)
Definition with_preflight
    (parse_config : string → (Config.t * Handlers) + error)
    (parse_level : string → Level * option error)
    (new_client : string → option error) (w : World) : World :=
  {| flag_Parse := flag_Parse w;
     ParseConfig := parse_config;
     getServiceConfig := getServiceConfig w;
     ParseLevel := parse_level;
     NewClient := new_client;
     Leader := Leader w;
     Catalog_Services := Catalog_Services w;
     Catalog_Nodes := Catalog_Nodes w;
     Agent_Services := Agent_Services w;
     Agent_NodeName := Agent_NodeName w;
     range_services := range_services w;
     range_services_perm := range_services_perm w;
     range_agent := range_agent w;
     range_agent_perm := range_agent_perm w;
     signals := signals w;
     stop_receives := stop_receives w |}.

(** A world that differs from [w] in what the registry answers to the
    discovery requests. *)
Definition with_discovery
    (catalog_services : gmap string (list string) + error)
    (catalog_nodes : list string + error)
    (agent_services : gmap string AgentService + error)
    (agent_node_name : string + error) (w : World) : World :=
  {| flag_Parse := flag_Parse w;
     ParseConfig := ParseConfig w;
     getServiceConfig := getServiceConfig w;
     ParseLevel := ParseLevel w;
     NewClient := NewClient w;
     Leader := Leader w;
     Catalog_Services := catalog_services;
     Catalog_Nodes := catalog_nodes;
     Agent_Services := agent_services;
     Agent_NodeName := agent_node_name;
     range_services := range_services w;
     range_services_perm := range_services_perm w;
     range_agent := range_agent w;
     range_agent_perm := range_agent_perm w;
     signals := signals w;
     stop_receives := stop_receives w |}.

(** The configuration file does not parse; the log level is not one of
    logrus; the client cannot be built. *)
Definition w_bad_config : World :=
  with_preflight (λ _, inr "unexpected token") (ParseLevel w_fleet)
    (NewClient w_fleet) w_fleet.

Definition w_bad_level : World :=
  with_preflight (ParseConfig w_fleet)
    (λ _, (PanicLevel, Some "not a valid logrus Level")) (NewClient w_fleet)
    w_fleet.

Definition w_bad_client : World :=
  with_preflight (ParseConfig w_fleet) (ParseLevel w_fleet)
    (λ _, Some "invalid address") w_fleet.

(** The registry answers the third leader query. *)
Definition up_at_third : nat → option error :=
  λ i, if (i <? 2)%nat then Some "connection refused" else None.

Definition w_slow : World :=
  mk_world true false no_svc_cfg up_at_third
    {["web" := ["a"]]} ["node1"] ∅ "node1" [] 0.

(** The catalog has no answer for the services, in DevMode; it has none
    for the nodes. *)
Definition w_no_services : World :=
  with_discovery (inr "no cluster leader") (Catalog_Nodes w_fleet)
    (Agent_Services w_fleet) (Agent_NodeName w_fleet) w_fleet.


(** Local mode; the agent holds two registrations of [web] with the same
    tags and one of [db]. *)
Definition agent_three : gmap string AgentService :=
  <["web-1" := {| Service := "web"; Tags := ["v1"] |}]>
    (<["web-2" := {| Service := "web"; Tags := ["v1"] |}]>
       (<["db-1" := {| Service := "db"; Tags := [] |}]> ∅)).

Definition w_agent : World :=
  mk_world false false no_svc_cfg always_up ∅ [] agent_three "node1"
    [1; SIGINT] 4.

Definition b_agent : Booted :=
  {| b_config := cfg false false;
     b_handlers := ["stdout"];
     b_client := {| Address := "127.0.0.1:8500" |};
     b_services := <["web" := ["v1"]]> (<["db" := []]> ∅);
     b_nodes := ["node1"] |}.

(** Every tag of the one service is ignored. *)
Definition all_ignored : ServiceConfig.t :=
  {| ServiceConfig.ChangeThreshold := 30;
     ServiceConfig.DistinctTags := true;
     ServiceConfig.IgnoredTags := ["a"; "b"] |}.

Definition w_all_ignored : World :=
  mk_world true false (λ _, Some all_ignored) always_up
    {["web" := ["a"; "b"; "a"]]} [] ∅ "node1" [] 0.

Definition b_all_ignored : Booted :=
  {| b_config := cfg true false;
     b_handlers := ["stdout"];
     b_client := {| Address := "127.0.0.1:8500" |};
     b_services := {["web" := ["a"; "b"; "a"]]};
     b_nodes := [] |}.

(** Only signals the switch does not know arrive. *)
Definition w_hangups : World :=
  mk_world true true no_svc_cfg always_up
    {["web" := ["a"]]} ["node1"] ∅ "node1" [1; 1; 28] 0.

(** An event of lines 125-171: a channel is made, an entry is logged, a
    goroutine is started. *)
Definition bootstrap_event (e : Event) : Prop :=
  match e with
  | EvMakeChan _ | EvLog _ _ _ | EvGo _ => True
  | _ => False
  end.

(** What a run shows before an exit with status 0 (the usage text was
    printed, or SIGINT, SIGTERM or SIGQUIT was taken from the channel) or
    with status 1 (an entry was logged with [log.Fatal]). *)
Definition exit_cause (tr : list Event) (code : Z) : Prop :=
  (code = 0
   ∧ (EvPrint usage ∈ tr
      ∨ ∃ sig, sig ∈ [SIGINT; SIGTERM; SIGQUIT] ∧ EvSignal sig ∈ tr))
  ∨ (code = 1 ∧ ∃ msg args, EvLog FatalLevel msg args ∈ tr).

(** If the run ends in an exit, its trace shows the cause. *)
Definition exits_with_cause {A} (p : Proc A) : Prop :=
  ∀ code, outcome p = Halt (Exited code) → exit_cause (trace p) code.


(** * Proofs *)

(** ** Go's int *)

Lemma wrap_in_range z : GoInt.in_range z → GoInt.wrap z = z.
Proof.
  unfold GoInt.in_range, GoInt.wrap. intros H.
  rewrite Z.mod_small; lia.
Qed.

Lemma wrap_add_l a b : GoInt.wrap (GoInt.wrap a + b) = GoInt.wrap (a + b).
Proof.
  unfold GoInt.wrap.
  replace ((a + 2 ^ 63) `mod` 2 ^ 64 - 2 ^ 63 + b + 2 ^ 63)
    with ((a + 2 ^ 63) `mod` 2 ^ 64 + b) by lia.
  rewrite Zplus_mod_idemp_l. f_equal. f_equal. lia.
Qed.

(** ** The monad *)

Lemma bind_Next {A B} (m : Proc A) (f : A → Proc B) tr a :
  m = (tr, Next a) → m ≫= f = (tr ++ trace (f a), outcome (f a)).
Proof. intros ->. unfold mbind, Proc_bind, trace, outcome. by destruct (f a). Qed.

Lemma bind_Halt {A B} (m : Proc A) (f : A → Proc B) tr s :
  m = (tr, Halt s) → m ≫= f = (tr, Halt s).
Proof. by intros ->. Qed.

Lemma trace_bind {A B} (m : Proc A) (f : A → Proc B) :
  trace (m ≫= f) =
  trace m ++ match outcome m with Next a => trace (f a) | Halt _ => [] end.
Proof.
  destruct m as [tr [a|s]]; unfold mbind, Proc_bind, trace, outcome; simpl.
  - by destruct (f a).
  - by rewrite app_nil_r.
Qed.

Lemma outcome_bind {A B} (m : Proc A) (f : A → Proc B) :
  outcome (m ≫= f) =
  match outcome m with Next a => outcome (f a) | Halt s => Halt s end.
Proof.
  destruct m as [tr [a|s]]; unfold mbind, Proc_bind, trace, outcome; simpl.
  - by destruct (f a).
  - done.
Qed.

Lemma proc_eta {A} (p : Proc A) : p = (trace p, outcome p).
Proof. by destruct p. Qed.

Lemma trace_pair {A} tr (r : Step A) : trace (tr, r) = tr.
Proof. done. Qed.

Lemma outcome_pair {A} tr (r : Step A) : outcome (tr, r) = r.
Proof. done. Qed.

Lemma spawned_app tr1 tr2 : spawned (tr1 ++ tr2) = spawned tr1 ++ spawned tr2.
Proof. apply omap_app. Qed.

Lemma calls_app tr1 tr2 : calls (tr1 ++ tr2) = calls tr1 ++ calls tr2.
Proof. apply omap_app. Qed.

Lemma sends_app tr1 tr2 : sends (tr1 ++ tr2) = sends tr1 ++ sends tr2.
Proof. apply omap_app. Qed.

Lemma spawned_map_EvGo gs : spawned (map EvGo gs) = gs.
Proof. induction gs as [|g gs IH]; [done|]. cbn. f_equal. exact IH. Qed.

(** ** Properties of all events of a run *)

Lemma all_events_bind {A B} P (m : Proc A) (f : A → Proc B) :
  all_events P m → (∀ a, all_events P (f a)) → all_events P (m ≫= f).
Proof.
  unfold all_events. intros Hm Hf. rewrite trace_bind.
  apply Forall_app. split; [done|].
  destruct (outcome m); [apply Hf | constructor].
Qed.

Lemma all_events_emit P e : P e → all_events P (emit e).
Proof. intros H. by repeat constructor. Qed.

Lemma all_events_ret {A} P (a : A) : all_events P (mret a).
Proof. constructor. Qed.

Lemma all_events_halt {A} P s : all_events P (@halt A s).
Proof. constructor. Qed.

Lemma not_go_spawned tr : Forall not_go tr → spawned tr = [].
Proof.
  induction 1 as [|e tr He _ IH]; [done|].
  destruct e; simpl in He; try done; exact IH.
Qed.

Lemma not_call_calls tr : Forall not_call tr → calls tr = [].
Proof.
  induction 1 as [|e tr He _ IH]; [done|].
  destruct e; simpl in He; try done; exact IH.
Qed.

(** Goes through a straight-line piece of the program, one bind, branch or
    call at a time, for a property every single event has. *)
Ltac all_events_step :=
  first
    [ apply all_events_emit; exact I
    | apply all_events_ret
    | apply all_events_halt
    | apply all_events_bind; [|intros]
    | match goal with
      | |- all_events _ (match ?x with _ => _ end) => destruct x
      | |- all_events _ (let '(_, _) := ?x in _) => destruct x
      end ].

(** ** The watch loops *)

Lemma contains_spec s e : contains s e = true ↔ e ∈ s.
Proof.
  induction s as [|a s IH]; simpl.
  - split; [done|]. by intros ?%elem_of_nil.
  - destruct (String.eqb_spec a e) as [->|Hne].
    + split; [intros _; left | done].
    + rewrite IH. split; [by right|].
      intros [?|?]%elem_of_cons; [congruence | done].
Qed.

Lemma contains_false s e : contains s e = false ↔ e ∉ s.
Proof.
  rewrite <- contains_spec. destruct (contains s e); split; done.
Qed.

Lemma stopCh_incr_by n so :
  ShutdownOpts.stopCh (incr_by n so) = ShutdownOpts.stopCh so.
Proof. induction n as [|n IH]; [done|]. exact IH. Qed.

Lemma incr_by_add n m so : incr_by (n + m) so = incr_by m (incr_by n so).
Proof.
  unfold incr_by. rewrite Nat.add_comm. apply Nat.iter_add.
Qed.

Lemma count_incr_by n so :
  ShutdownOpts.count so = 0 →
  ShutdownOpts.count (incr_by n so) = GoInt.wrap (Z.of_nat n).
Proof.
  intros H0. induction n as [|n IH]; [cbn; by rewrite H0|].
  change (incr_by (S n) so) with (count_incr (incr_by n so)).
  unfold count_incr; simpl. rewrite IH. unfold GoInt.add.
  rewrite wrap_add_l. f_equal. lia.
Qed.

Lemma for_range_starts {A} (body : ShutdownOpts.t → A → Proc ShutdownOpts.t)
    (gs : Chan → A → list Goroutine) :
  starts body gs →
  starts (λ so l, for_range body l so) (λ ch l, l ≫= gs ch).
Proof.
  intros Hbody so l. revert so.
  induction l as [|x l IH]; intros so; simpl.
  - by exists [].
  - destruct (Hbody so x) as (tr1 & Hrun & Hsp).
    destruct (IH (incr_by
        (length (filter (λ g, registered (ShutdownOpts.stopCh so) g)
                   (gs (ShutdownOpts.stopCh so) x))) so))
      as (tr2 & Hrun2 & Hsp2).
    rewrite stopCh_incr_by in Hrun2, Hsp2.
    exists (tr1 ++ tr2). split.
    + erewrite bind_Next by exact Hrun. rewrite Hrun2. simpl.
      rewrite filter_app, length_app, incr_by_add. done.
    + by rewrite spawned_app, Hsp, Hsp2.
Qed.

Lemma registered_tag_watch sc b service ch tag :
  registered ch (tag_watch sc b service ch tag) = true.
Proof. unfold registered. by apply bool_decide_eq_true. Qed.

Lemma watch_tag_starts sc b service :
  starts (watch_tag sc b service)
         (λ ch tag, tag_watches sc b service ch [tag]).
Proof.
  intros so tag. unfold watch_tag, tag_watches.
  destruct (contains (ServiceConfig.IgnoredTags sc) tag) eqn:Hc.
  - apply contains_spec in Hc. exists []. simpl.
    rewrite filter_cons_False by (intros H; by apply H). done.
  - apply contains_false in Hc.
    exists [EvGo (tag_watch sc b service (ShutdownOpts.stopCh so) tag)].
    simpl. rewrite filter_cons_True by done. simpl.
    rewrite filter_cons_True by (by rewrite registered_tag_watch). done.
Qed.

Lemma tag_watches_bind sc b service ch tags :
  tags ≫= (λ tag, tag_watches sc b service ch [tag])
  = tag_watches sc b service ch tags.
Proof.
  unfold tag_watches. induction tags as [|tag tags IH]; [done|].
  cbn [mbind list_bind]. rewrite IH.
  destruct (decide (tag ∉ ServiceConfig.IgnoredTags sc)) as [Hin|Hin].
  - rewrite !filter_cons_True by done. done.
  - rewrite !filter_cons_False by done. done.
Qed.

Lemma registered_whole_watch b service ch :
  registered ch (whole_watch b service ch) = true.
Proof. unfold registered. by apply bool_decide_eq_true. Qed.

Lemma watch_whole_run b service so :
  watch_whole b service so
  = ([EvGo (whole_watch b service (ShutdownOpts.stopCh so))],
     Next (count_incr so)).
Proof. reflexivity. Qed.

Lemma watch_service_starts w b :
  starts (watch_service w b) (service_watches w b).
Proof.
  intros so [service tags]. unfold watch_service, service_watches. simpl.
  assert (Hwhole : ∃ tr,
    (log InfoLevel "Service found: %s, tags: %v" [AStr service; AStrs tags] ;;;
     watch_whole b service so)
    = (tr, Next (incr_by (length (filter
          (λ g, registered (ShutdownOpts.stopCh so) g)
          [whole_watch b service (ShutdownOpts.stopCh so)])) so))
    ∧ spawned tr = [whole_watch b service (ShutdownOpts.stopCh so)]).
  { eexists. rewrite watch_whole_run.
    rewrite filter_cons_True by (by rewrite registered_whole_watch).
    split; reflexivity. }
  destruct (getServiceConfig w (b_config b) service) as [sc|]; [|exact Hwhole].
  destruct (bool_decide (0 < length tags)%nat
            && ServiceConfig.DistinctTags sc); [|exact Hwhole].
  destruct (for_range_starts _ _ (watch_tag_starts sc b service) so tags)
    as (tr & Hrun & Hsp).
  simpl in Hrun, Hsp. rewrite tag_watches_bind in Hrun, Hsp.
  exists (EvLog InfoLevel "Service found: %s, tags: %v"
            [AStr service; AStrs tags] :: tr).
  split; [|exact Hsp].
  unfold log, emit. cbn [mbind Proc_bind]. by rewrite Hrun.
Qed.

Lemma watch_node_starts b :
  starts (watch_node b) (λ ch node, [node_watch b ch node]).
Proof.
  intros so node. unfold watch_node, node_watch.
  destruct (Config.GlobalMode (b_config b)); eexists; simpl.
  - rewrite filter_cons_True
      by (unfold registered; by apply bool_decide_pack).
    split; reflexivity.
  - split; reflexivity.
Qed.

Lemma start_watches_run w b :
  ∃ tr so,
    start_watches w b = (tr, Next so)
    ∧ spawned tr = watches w b
    ∧ ShutdownOpts.stopCh so = 0%nat
    ∧ ShutdownOpts.count so
      = GoInt.wrap (Z.of_nat (length (filter (λ g, registered 0%nat g)
                                        (watches w b)))).
Proof.
  set (so0 := {| ShutdownOpts.stopCh := 0%nat; ShutdownOpts.count := 0 |}).
  destruct (for_range_starts _ _ (watch_service_starts w b) so0
              (range_services w (b_services b))) as (tr1 & Hrun1 & Hsp1).
  simpl in Hrun1, Hsp1.
  set (n1 := length (filter (λ g, registered 0%nat g)
               (range_services w (b_services b) ≫= service_watches w b 0%nat)))
    in *.
  destruct (for_range_starts _ _ (watch_node_starts b) (incr_by n1 so0)
              (b_nodes b)) as (tr2 & Hrun2 & Hsp2).
  simpl in Hrun2, Hsp2. rewrite stopCh_incr_by in Hrun2, Hsp2. simpl in *.
  set (n2 := length (filter (λ g, registered 0%nat g)
               (b_nodes b ≫= (λ node, [node_watch b 0%nat node])))) in *.
  assert (Hmap : b_nodes b ≫= (λ node, [node_watch b 0%nat node])
                 = node_watch b 0%nat <$> b_nodes b).
  { clear. induction (b_nodes b) as [|x l IH]; [done|]. cbn. by f_equal. }
  exists (EvMakeChan 0%nat :: tr1
          ++ EvLog InfoLevel "Nodes found: %v" [AStrs (b_nodes b)] :: tr2),
         (incr_by n2 (incr_by n1 so0)).
  split; [|split; [|split]].
  - unfold start_watches. fold so0. unfold log, emit.
    cbn [mbind Proc_bind]. rewrite Hrun1. cbn [mbind Proc_bind].
    rewrite Hrun2. reflexivity.
  - unfold watches. rewrite <- Hmap, <- Hsp1, <- Hsp2.
    change (EvMakeChan 0%nat :: ?l) with ([EvMakeChan 0%nat] ++ l).
    rewrite !spawned_app. reflexivity.
  - by rewrite !stopCh_incr_by.
  - rewrite <- incr_by_add. rewrite count_incr_by by done.
    unfold watches. rewrite filter_app, length_app. rewrite <- Hmap. done.
Qed.

(** ** Where goroutines start and where the registry is contacted *)

Lemma preflight_no_call w : all_events not_call (preflight w).
Proof. unfold preflight, log_Fatal, log, os_Exit. repeat all_events_step. Qed.

Lemma preflight_no_go w : all_events not_go (preflight w).
Proof. unfold preflight, log_Fatal, log, os_Exit. repeat all_events_step. Qed.

Lemma connect_no_go fuel w client i : all_events not_go (connect fuel w client i).
Proof.
  revert i. induction fuel as [|fuel IH]; intros i; cbn [connect].
  - apply all_events_halt.
  - unfold log. repeat first [apply IH | all_events_step].
Qed.

Lemma discover_no_go w config client : all_events not_go (discover w config client).
Proof. unfold discover, log_Fatal, log, os_Exit. repeat all_events_step. Qed.

Lemma startup_no_go fuel w : all_events not_go (startup fuel w).
Proof.
  unfold startup. apply all_events_bind; [apply preflight_no_go|].
  intros [[config handlers] client].
  apply all_events_bind; [apply connect_no_go|]; intros _.
  apply all_events_bind;
    [unfold registerTestServices; repeat all_events_step|]; intros _.
  apply all_events_bind; [unfold log; repeat all_events_step|]; intros _.
  apply all_events_bind; [apply discover_no_go|]; intros [services nodes].
  apply all_events_ret.
Qed.

Lemma send_loop_no_go ch n ready : all_events not_go (send_loop ch n ready).
Proof.
  revert ready. induction n as [|n IH]; intros ready; cbn [send_loop].
  - apply all_events_ret.
  - repeat first [apply IH | all_events_step].
Qed.

Lemma shutdown_no_go w client config opts :
  all_events not_go (shutdown w client config opts).
Proof.
  unfold shutdown, log, os_Exit.
  repeat first [apply send_loop_no_go | all_events_step].
Qed.

Lemma signal_loop_no_go w b opts sigs :
  all_events not_go (signal_loop w b opts sigs).
Proof.
  induction sigs as [|sig sigs IH]; cbn [signal_loop].
  - apply all_events_halt.
  - unfold handle_signal, log.
    repeat first [apply shutdown_no_go | apply IH | all_events_step].
Qed.

Lemma serve_signals_no_go w b opts : all_events not_go (serve_signals w b opts).
Proof.
  unfold serve_signals. repeat first [apply signal_loop_no_go | all_events_step].
Qed.

(** A run of main: the start-up, then the watches, then the signals. *)
Lemma main_run fuel w :
  main fuel w =
  match outcome (startup fuel w) with
  | Halt s => (trace (startup fuel w), Halt s)
  | Next b =>
      match outcome (start_watches w b) with
      | Halt s => (trace (startup fuel w) ++ trace (start_watches w b), Halt s)
      | Next so =>
          (trace (startup fuel w) ++ trace (start_watches w b)
             ++ trace (serve_signals w b so),
           outcome (serve_signals w b so))
      end
  end.
Proof.
  unfold main.
  destruct (startup fuel w) as [tr0 [b|s]] eqn:Hs; simpl; [|done].
  destruct (start_watches w b) as [tr1 [so|s]] eqn:Hw; simpl.
  - destruct (serve_signals w b so) as [tr2 r]. simpl. by rewrite app_assoc.
  - done.
Qed.

(** The goroutines of a whole run are those of [start_watches]. *)
Lemma main_spawned fuel w :
  spawned (trace (main fuel w)) =
  match outcome (startup fuel w) with
  | Next b => watches w b
  | Halt _ => []
  end.
Proof.
  rewrite main_run.
  pose proof (not_go_spawned _ (startup_no_go fuel w)) as H0.
  destruct (outcome (startup fuel w)) as [b|s]; [|exact H0].
  destruct (start_watches_run w b) as (tr & so & Hrun & Hsp & _).
  pose proof (not_go_spawned _ (serve_signals_no_go w b so)) as H2.
  rewrite Hrun. unfold outcome at 1. cbn [snd]. unfold trace at 1. cbn [fst].
  rewrite !spawned_app, H0, H2. unfold trace at 1. cbn [fst].
  rewrite Hsp. simpl. by rewrite app_nil_r.
Qed.

(** ** The shutdown path *)

Lemma send_loop_run ch n ready :
  send_loop ch n ready =
  (replicate (n `min` ready)%nat (EvSend ch),
   if bool_decide (n ≤ ready)%nat then Next tt else Halt BlockedOnSend).
Proof.
  revert ready. induction n as [|n IH]; intros ready; [done|].
  destruct ready as [|ready]; [done|].
  cbn [send_loop]. unfold emit. cbn [mbind Proc_bind]. rewrite IH.
  simpl. f_equal.
  destruct (decide (n ≤ ready)%nat).
  - rewrite !bool_decide_eq_true_2 by lia. done.
  - rewrite !bool_decide_eq_false_2 by lia. done.
Qed.

Lemma shutdown_run w client config opts :
  shutdown w client config opts =
  (EvLog InfoLevel "Got interrupt signal, shutting down" []
     :: deregistrations client config
     ++ EvLog InfoLevel "Releasing locks..." []
     :: replicate (stop_signals opts `min` stop_receives w)%nat
          (EvSend (ShutdownOpts.stopCh opts)),
   Halt (if bool_decide (stop_signals opts ≤ stop_receives w)%nat
         then Exited 0 else BlockedOnSend)).
Proof.
  unfold shutdown, deregistrations. rewrite send_loop_run. fold (stop_signals opts).
  destruct (Config.DevMode config);
    destruct (bool_decide (stop_signals opts ≤ stop_receives w)%nat);
    cbn; by rewrite ?app_nil_r.
Qed.

Lemma sends_replicate n ch : sends (replicate n (EvSend ch)) = replicate n ch.
Proof. induction n as [|n IH]; [done|]. cbn. by f_equal. Qed.

Lemma sends_deregistrations client config :
  sends (deregistrations client config) = [].
Proof. unfold deregistrations. by destruct (Config.DevMode config). Qed.

Lemma sends_shutdown w client config opts :
  sends (trace (shutdown w client config opts)) =
  replicate (stop_signals opts `min` stop_receives w)%nat
            (ShutdownOpts.stopCh opts).
Proof.
  rewrite shutdown_run. unfold trace. cbn [fst].
  change (?e :: ?l ++ ?e' :: ?l') with ([e] ++ l ++ [e'] ++ l').
  rewrite !sends_app, sends_deregistrations, sends_replicate. done.
Qed.

Lemma stop_signals_spec opts :
  0 ≤ ShutdownOpts.count opts < 2 ^ 62 →
  Z.of_nat (stop_signals opts) = ShutdownOpts.count opts * 2.
Proof.
  intros H. unfold stop_signals, GoInt.mul.
  rewrite wrap_in_range by (unfold GoInt.in_range; lia). lia.
Qed.

Lemma handle_signal_termination w b opts sig :
  sig ∈ [SIGINT; SIGTERM; SIGQUIT] →
  handle_signal w b opts sig = shutdown w (b_client b) (b_config b) opts.
Proof.
  intros Hin. unfold handle_signal.
  repeat case_decide; try done. exfalso.
  repeat (apply elem_of_cons in Hin as [?|Hin]; [done|]).
  by apply elem_of_nil in Hin.
Qed.

Lemma handle_signal_unknown w b opts sig :
  sig ∉ [SIGINT; SIGTERM; SIGQUIT] →
  handle_signal w b opts sig = log ErrorLevel "Unknown signal." [].
Proof.
  intros Hin. unfold handle_signal.
  repeat case_decide; try done; destruct Hin; subst; repeat constructor.
Qed.

Lemma signal_loop_termination w b opts sig rest :
  sig ∈ [SIGINT; SIGTERM; SIGQUIT] →
  signal_loop w b opts (sig :: rest) =
  (EvSignal sig :: trace (shutdown w (b_client b) (b_config b) opts),
   outcome (shutdown w (b_client b) (b_config b) opts)).
Proof.
  intros Hin. cbn [signal_loop]. rewrite handle_signal_termination by done.
  rewrite shutdown_run. reflexivity.
Qed.

Lemma signal_loop_unknown w b opts pre rest :
  Forall (λ sig, sig ∉ [SIGINT; SIGTERM; SIGQUIT]) pre →
  signal_loop w b opts (pre ++ rest) =
  (unknown_signals pre ++ trace (signal_loop w b opts rest),
   outcome (signal_loop w b opts rest)).
Proof.
  induction 1 as [|sig pre Hsig _ IH].
  - simpl. apply proc_eta.
  - cbn [app signal_loop]. rewrite handle_signal_unknown by done.
    rewrite IH. reflexivity.
Qed.

(** ** C1: which watches the shutdown path knows *)

Lemma booted_Some fuel w b :
  booted fuel w = Some b → outcome (startup fuel w) = Next b.
Proof. unfold booted. destruct (outcome (startup fuel w)); naive_solver. Qed.

Lemma watches_stopCh w b g :
  g ∈ watches w b →
  WatchOptions.stopCh (opts_of g) =
    if is_service_watch g || Config.GlobalMode (b_config b)
    then Some 0%nat else None.
Proof.
  unfold watches. intros [Hg|Hg]%elem_of_app.
  - apply list_elem_of_bind in Hg as (kv & Hg & _).
    unfold service_watches in Hg.
    assert (Hwhole : g ∈ [whole_watch b kv.1 0%nat] →
      WatchOptions.stopCh (opts_of g) =
        if is_service_watch g || Config.GlobalMode (b_config b)
        then Some 0%nat else None).
    { intros ->%list_elem_of_singleton. done. }
    destruct (getServiceConfig w (b_config b) kv.1) as [sc|]; [|by apply Hwhole].
    destruct (bool_decide (0 < length kv.2)%nat
              && ServiceConfig.DistinctTags sc); [|by apply Hwhole].
    unfold tag_watches in Hg.
    apply list_elem_of_fmap in Hg as (tag & -> & _). done.
  - apply list_elem_of_fmap in Hg as (node & -> & _). simpl.
    by destruct (Config.GlobalMode (b_config b)).
Qed.

(** C1 (as amended): in a run that gets through the start-up, every
    [WatchService] goroutine, and every [WatchNode] goroutine of global
    mode, carries the shared stop channel, and [count] was incremented once
    for each of them (so it is their number, as a Go [int]); a [WatchNode]
    goroutine of local mode carries no stop channel and is not counted. *)
Theorem C1_watches_registered fuel w b :
  booted fuel w = Some b →
  ∃ so,
    outcome (start_watches w b) = Next so
    ∧ (∀ g, g ∈ spawned (trace (main fuel w)) →
         WatchOptions.stopCh (opts_of g) =
           if is_service_watch g || Config.GlobalMode (b_config b)
           then Some (ShutdownOpts.stopCh so) else None)
    ∧ ShutdownOpts.count so =
        GoInt.wrap (Z.of_nat (length
          (filter (λ g, registered (ShutdownOpts.stopCh so) g)
                  (spawned (trace (main fuel w))))))
    ∧ (Z.of_nat (length (spawned (trace (main fuel w)))) < 2 ^ 63 →
       ShutdownOpts.count so =
         Z.of_nat (length
           (filter (λ g, registered (ShutdownOpts.stopCh so) g)
                   (spawned (trace (main fuel w)))))).
Proof.
  intros Hb%booted_Some.
  destruct (start_watches_run w b) as (tr & so & Hrun & Hsp & Hch & Hcount).
  exists so. rewrite main_spawned, Hb, Hch.
  split; [by rewrite Hrun|]. split; [apply watches_stopCh|].
  split; [exact Hcount|].
  intros Hlen. rewrite Hcount. apply wrap_in_range.
  pose proof (length_filter (λ g, registered 0%nat g) (watches w b)).
  unfold GoInt.in_range. lia.
Qed.

Lemma C1_watches_registered_witness :
  ∃ b, booted 1 w_fleet = Some b ∧
  ∃ so,
    outcome (start_watches w_fleet b) = Next so
    ∧ (∀ g, g ∈ spawned (trace (main 1 w_fleet)) →
         WatchOptions.stopCh (opts_of g) =
           if is_service_watch g || Config.GlobalMode (b_config b)
           then Some (ShutdownOpts.stopCh so) else None)
    ∧ ShutdownOpts.count so =
        GoInt.wrap (Z.of_nat (length
          (filter (λ g, registered (ShutdownOpts.stopCh so) g)
                  (spawned (trace (main 1 w_fleet))))))
    ∧ (Z.of_nat (length (spawned (trace (main 1 w_fleet)))) < 2 ^ 63 →
       ShutdownOpts.count so =
         Z.of_nat (length
           (filter (λ g, registered (ShutdownOpts.stopCh so) g)
                   (spawned (trace (main 1 w_fleet)))))).
Proof.
  eexists. split; [vm_compute; reflexivity|].
  apply (C1_watches_registered 1 w_fleet). vm_compute. reflexivity.
Defined.

(** C1 as stated fails in local mode: the watch of the local node is
    started with a nil stop channel, and [count] stays 0. *)
Lemma C1_local_node_watch_not_registered :
  ∃ b so,
    booted 1 w_local = Some b
    ∧ outcome (start_watches w_local b) = Next so
    ∧ ¬ (∀ g, g ∈ spawned (trace (main 1 w_local)) →
           WatchOptions.stopCh (opts_of g) = Some (ShutdownOpts.stopCh so))
    ∧ ShutdownOpts.count so
      ≠ Z.of_nat (length (spawned (trace (main 1 w_local)))).
Proof.
  eexists. eexists.
  split; [vm_compute; reflexivity|].
  split; [vm_compute; reflexivity|].
  split.
  - intros H.
    specialize (H (WatchNode "node1"
      (watch_opts {| b_config := cfg false false; b_handlers := ["stdout"];
                     b_client := {| Address := "127.0.0.1:8500" |};
                     b_services := ∅; b_nodes := ["node1"] |} 60 None))).
    discriminate H. vm_compute. left.
  - vm_compute. discriminate.
Qed.

(** ** C2: the stop signals of [shutdown] *)

(** C2: with [count] watches registered, [shutdown] sends on the stop
    channel, and on no other, at most [count * 2] times; it reaches
    [os.Exit] only after exactly [count * 2] sends, and it does reach it
    when the watches receive that many. *)
Theorem C2_shutdown_sends w client config opts :
  0 ≤ ShutdownOpts.count opts < 2 ^ 62 →
  let run := shutdown w client config opts in
  Z.of_nat (length (sends (trace run))) ≤ ShutdownOpts.count opts * 2
  ∧ (∀ ch, ch ∈ sends (trace run) → ch = ShutdownOpts.stopCh opts)
  ∧ (∀ code, outcome run = Halt (Exited code) →
       Z.of_nat (length (sends (trace run))) = ShutdownOpts.count opts * 2)
  ∧ (ShutdownOpts.count opts * 2 ≤ Z.of_nat (stop_receives w) →
       outcome run = Halt (Exited 0)
       ∧ Z.of_nat (length (sends (trace run))) = ShutdownOpts.count opts * 2).
Proof.
  intros Hcount run. subst run.
  pose proof (stop_signals_spec opts Hcount) as Hn.
  rewrite sends_shutdown, length_replicate.
  rewrite shutdown_run. unfold outcome. cbn [snd].
  split; [lia|]. split; [by intros ch [? _]%elem_of_replicate|].
  split.
  - intros code. case_bool_decide; [lia|done].
  - intros Hrecv. rewrite bool_decide_eq_true_2 by lia. split; [done|lia].
Qed.

Lemma C2_shutdown_sends_witness :
  let opts := {| ShutdownOpts.stopCh := 0%nat; ShutdownOpts.count := 4 |} in
  let run := shutdown w_fleet {| Address := "127.0.0.1:8500" |}
               (cfg true true) opts in
  Z.of_nat (length (sends (trace run))) ≤ 4 * 2
  ∧ (∀ ch, ch ∈ sends (trace run) → ch = 0%nat)
  ∧ (∀ code, outcome run = Halt (Exited code) →
       Z.of_nat (length (sends (trace run))) = 4 * 2)
  ∧ (4 * 2 ≤ Z.of_nat (stop_receives w_fleet) →
       outcome run = Halt (Exited 0)
       ∧ Z.of_nat (length (sends (trace run))) = 4 * 2).
Proof.
  apply (C2_shutdown_sends w_fleet {| Address := "127.0.0.1:8500" |}
           (cfg true true)
           {| ShutdownOpts.stopCh := 0%nat; ShutdownOpts.count := 4 |}).
  simpl. lia.
Defined.

(** ** C3: the signal switch *)

(** C3: while only signals other than SIGINT, SIGTERM and SIGQUIT arrive,
    each leaves one log entry and the loop goes on to wait for the next;
    the first of the three that arrives runs [shutdown] on the client, the
    configuration and the [ShutdownOpts] of the bootstrap, whichever of the
    three it is. *)
Theorem C3_signal_dispatch w b opts pre :
  Forall (λ sig, sig ∉ [SIGINT; SIGTERM; SIGQUIT]) pre →
  signal_loop w b opts pre = (unknown_signals pre, Halt Waiting)
  ∧ ∀ sig rest,
      sig ∈ [SIGINT; SIGTERM; SIGQUIT] →
      handle_signal w b opts sig = shutdown w (b_client b) (b_config b) opts
      ∧ signal_loop w b opts (pre ++ sig :: rest) =
        (unknown_signals pre
           ++ EvSignal sig
           :: trace (shutdown w (b_client b) (b_config b) opts),
         outcome (shutdown w (b_client b) (b_config b) opts)).
Proof.
  intros Hpre. split.
  - rewrite <- (app_nil_r pre) at 1.
    rewrite signal_loop_unknown by done. simpl. by rewrite app_nil_r.
  - intros sig rest Hsig. split; [by apply handle_signal_termination|].
    rewrite signal_loop_unknown by done.
    by rewrite signal_loop_termination.
Qed.

Lemma C3_signal_dispatch_witness :
  let b := {| b_config := cfg true true; b_handlers := ["stdout"];
              b_client := {| Address := "127.0.0.1:8500" |};
              b_services := ∅; b_nodes := [] |} in
  let opts := {| ShutdownOpts.stopCh := 0%nat; ShutdownOpts.count := 4 |} in
  signal_loop w_fleet b opts [1; 28] = (unknown_signals [1; 28], Halt Waiting)
  ∧ ∀ sig rest,
      sig ∈ [SIGINT; SIGTERM; SIGQUIT] →
      handle_signal w_fleet b opts sig
        = shutdown w_fleet (b_client b) (b_config b) opts
      ∧ signal_loop w_fleet b opts ([1; 28] ++ sig :: rest) =
        (unknown_signals [1; 28]
           ++ EvSignal sig
           :: trace (shutdown w_fleet (b_client b) (b_config b) opts),
         outcome (shutdown w_fleet (b_client b) (b_config b) opts)).
Proof.
  intros b opts. apply (C3_signal_dispatch w_fleet b opts [1; 28]).
  repeat constructor; vm_compute; intros H; inversion H; subst;
    repeat match goal with
           | H : _ ∈ _ |- _ => inversion H; clear H; subst
           end.
Defined.

(** ** C10: how [shutdown] ends *)

(** C10 (as amended): once one of the three signals is taken from the
    channel, [shutdown] runs and control never comes back to the loop (the
    later signals are not looked at). The run ends in [os.Exit(0)] when
    the watches receive every stop signal, and it ends there only then:
    with fewer receives it stays blocked in the send loop, after as many
    sends as there were receives. It ends in no other way and with no
    other status. All deregistrations precede the first send. *)
Theorem C10_shutdown_exits_zero w b opts sig rest :
  sig ∈ [SIGINT; SIGTERM; SIGQUIT] →
  let run := signal_loop w b opts (sig :: rest) in
  let sd := shutdown w (b_client b) (b_config b) opts in
  run = (EvSignal sig :: trace sd, outcome sd)
  ∧ (outcome run = Halt (Exited 0) ∨ outcome run = Halt BlockedOnSend)
  ∧ ((stop_signals opts ≤ stop_receives w)%nat → outcome run = Halt (Exited 0))
  ∧ ((stop_receives w < stop_signals opts)%nat →
     outcome run = Halt BlockedOnSend
     ∧ sends (trace run)
       = replicate (stop_receives w) (ShutdownOpts.stopCh opts))
  ∧ ∃ before after,
      trace sd = before ++ after
      ∧ sends before = []
      ∧ fixtures_deregistered before = fixtures_deregistered (trace sd)
      ∧ calls after = []
      ∧ after = replicate (length after) (EvSend (ShutdownOpts.stopCh opts)).
Proof.
  intros Hsig run sd. subst run sd.
  rewrite signal_loop_termination by done.
  split; [done|]. unfold outcome at 1 2 3. cbn [snd].
  rewrite shutdown_run. unfold outcome, trace. cbn [fst snd].
  split; [case_bool_decide; [by left | by right]|].
  split; [intros Hle; by rewrite bool_decide_eq_true_2|].
  split.
  { intros Hlt. rewrite bool_decide_eq_false_2 by lia. split; [done|].
    change (EvSignal sig :: ?e :: ?l ++ ?e' :: ?l')
      with ([EvSignal sig; e] ++ l ++ [e'] ++ l').
    rewrite !sends_app, sends_deregistrations, sends_replicate.
    simpl. f_equal. lia. }
  exists (EvLog InfoLevel "Got interrupt signal, shutting down" []
            :: deregistrations (b_client b) (b_config b)
            ++ [EvLog InfoLevel "Releasing locks..." []]),
         (replicate (stop_signals opts `min` stop_receives w)%nat
            (EvSend (ShutdownOpts.stopCh opts))).
  split; [simpl; by rewrite <- app_assoc|].
  assert (Hcalls : ∀ n ch, calls (replicate n (EvSend ch)) = []).
  { intros n ch. induction n as [|n IH]; [done|exact IH]. }
  split; [|split; [|split]].
  - change (?e :: ?l ++ ?l') with ([e] ++ l ++ l').
    by rewrite !sends_app, sends_deregistrations.
  - unfold fixtures_deregistered. f_equal.
    change (?e :: ?l ++ ?e' :: ?l') with ([e] ++ l ++ [e'] ++ l').
    by rewrite !calls_app, Hcalls.
  - apply Hcalls.
  - by rewrite length_replicate.
Qed.

Lemma C10_shutdown_exits_zero_witness :
  let b := {| b_config := cfg true true; b_handlers := ["stdout"];
              b_client := {| Address := "127.0.0.1:8500" |};
              b_services := ∅; b_nodes := [] |} in
  let opts := {| ShutdownOpts.stopCh := 0%nat; ShutdownOpts.count := 4 |} in
  let run := signal_loop w_fleet b opts [SIGQUIT; SIGINT] in
  let sd := shutdown w_fleet (b_client b) (b_config b) opts in
  run = (EvSignal SIGQUIT :: trace sd, outcome sd)
  ∧ (outcome run = Halt (Exited 0) ∨ outcome run = Halt BlockedOnSend)
  ∧ ((stop_signals opts ≤ stop_receives w_fleet)%nat →
     outcome run = Halt (Exited 0))
  ∧ ((stop_receives w_fleet < stop_signals opts)%nat →
     outcome run = Halt BlockedOnSend
     ∧ sends (trace run)
       = replicate (stop_receives w_fleet) (ShutdownOpts.stopCh opts))
  ∧ ∃ before after,
      trace sd = before ++ after
      ∧ sends before = []
      ∧ fixtures_deregistered before = fixtures_deregistered (trace sd)
      ∧ calls after = []
      ∧ after = replicate (length after) (EvSend (ShutdownOpts.stopCh opts)).
Proof.
  intros b opts.
  apply (C10_shutdown_exits_zero w_fleet b opts SIGQUIT [SIGINT]).
  vm_compute. right. right. left.
Defined.

(** C10 as stated fails: one watch is counted, SIGTERM arrives and the
    watches receive once; the second send finds no receiver and the
    process does not terminate. *)
Lemma C10_shutdown_blocks_without_receiver :
  EvSignal SIGTERM ∈ trace (main 1 w_one_receive)
  ∧ outcome (main 1 w_one_receive) = Halt BlockedOnSend
  ∧ sends (trace (main 1 w_one_receive)) = [0%nat].
Proof.
  split; [|split]; [|vm_compute; reflexivity..].
  vm_compute.
  repeat first [left | right].
Qed.

(** ** C4: a registry that cannot be reached *)

Lemma connect_unreachable w client :
  (∀ i, is_Some (Leader w i)) →
  ∀ fuel i,
    outcome (connect fuel w client i) = Halt Retrying
    ∧ calls (trace (connect fuel w client i)) = replicate fuel StatusLeader.
Proof.
  intros Hdown. induction fuel as [|fuel IH]; intros i; [done|].
  cbn [connect]. destruct (Hdown i) as [err ->].
  destruct (IH (S i)) as [Hout Hcalls].
  destruct (connect fuel w client (S i)) as [tr r].
  unfold outcome, trace in *. simpl in *. subst r. by rewrite Hcalls.
Qed.

Lemma connect_reachable w client n :
  Leader w n = None →
  ∀ fuel i, (i ≤ n < i + fuel)%nat →
    outcome (connect fuel w client i) = Next tt.
Proof.
  intros Hup. induction fuel as [|fuel IH]; intros i Hi; [lia|].
  cbn [connect]. destruct (Leader w i) as [err|] eqn:Hl.
  - assert (i ≠ n) by congruence.
    specialize (IH (S i) ltac:(lia)).
    destruct (connect fuel w client (S i)) as [tr r].
    unfold outcome in *. simpl in *. by subst r.
  - done.
Qed.

Lemma sleeps_app tr1 tr2 : sleeps (tr1 ++ tr2) = sleeps tr1 ++ sleeps tr2.
Proof. apply omap_app. Qed.

Lemma failed_attempts_calls_sleeps w client (l : list nat) :
  (∀ j, j ∈ l → is_Some (Leader w j)) →
  let tr := l ≫= λ j, from_option (failed_attempt client) [] (Leader w j) in
  calls tr = replicate (length l) StatusLeader
  ∧ sleeps tr = replicate (length l) 10.
Proof.
  induction l as [|j l IH]; intros Hdown; [done|].
  destruct (Hdown j) as [err Herr]; [left|].
  destruct IH as [IHc IHs]; [intros k Hk; apply Hdown; by right|].
  cbn [mbind list_bind]. rewrite Herr, calls_app, sleeps_app, IHc, IHs. done.
Qed.

Lemma not_sleep_sleeps tr : Forall not_sleep tr → sleeps tr = [].
Proof.
  induction 1 as [|e tr He _ IH]; [done|].
  destruct e; simpl in He; try done; exact IH.
Qed.

Lemma preflight_no_sleep w : all_events not_sleep (preflight w).
Proof. unfold preflight, log_Fatal, log, os_Exit. repeat all_events_step. Qed.

Lemma connect_unreachable_trace w client :
  (∀ i, is_Some (Leader w i)) →
  ∀ fuel i,
    trace (connect fuel w client i)
    = seq i fuel ≫= λ j, from_option (failed_attempt client) [] (Leader w j).
Proof.
  intros Hdown. induction fuel as [|fuel IH]; intros i; [done|].
  cbn [connect seq mbind list_bind]. destruct (Hdown i) as [err Herr].
  rewrite Herr. specialize (IH (S i)).
  destruct (connect fuel w client (S i)) as [tr r].
  rewrite trace_pair in IH. subst tr. reflexivity.
Qed.

Lemma main_unreachable w config handlers client :
  outcome (preflight w) = Next (config, handlers, client) →
  (∀ i, is_Some (Leader w i)) →
  ∀ fuel,
    main fuel w =
    (trace (preflight w) ++ trace (connect fuel w client 0), Halt Retrying).
Proof.
  intros Hpre Hdown fuel.
  destruct (connect_unreachable w client Hdown fuel 0%nat) as [Hout _].
  rewrite (proc_eta (main fuel w)). unfold main, startup.
  rewrite !trace_bind, !outcome_bind, Hpre. cbv beta iota.
  rewrite !trace_bind, !outcome_bind, Hout.
  by rewrite !app_nil_r.
Qed.

(** C4 (as amended): when the configuration is in order and the registry
    cannot be reached, the process never aborts: however many rounds
    [fuel] one looks at, it is still in the retry loop and has started no
    watch. Each round is one leader query, the two error entries and a
    sleep of 10 seconds, and nothing else follows the start of the loop:
    [fuel] queries and no other request, [fuel] sleeps of 10 seconds. *)
Theorem C4_unreachable_registry_retries w config handlers client fuel :
  outcome (preflight w) = Next (config, handlers, client) →
  (∀ i, is_Some (Leader w i)) →
  outcome (main fuel w) = Halt Retrying
  ∧ spawned (trace (main fuel w)) = []
  ∧ calls (trace (main fuel w)) = replicate fuel StatusLeader
  ∧ sleeps (trace (main fuel w)) = replicate fuel 10
  ∧ trace (main fuel w)
    = trace (preflight w)
      ++ (seq 0 fuel
            ≫= λ j, from_option (failed_attempt client) [] (Leader w j)).
Proof.
  intros Hpre Hdown.
  rewrite (main_unreachable w config handlers client Hpre Hdown).
  split; [done|]. rewrite !trace_pair.
  rewrite (connect_unreachable_trace w client Hdown fuel 0%nat).
  destruct (failed_attempts_calls_sleeps w client (seq 0 fuel)) as [Hc Hs];
    [intros j _; apply Hdown|].
  rewrite length_seq in Hc, Hs.
  rewrite spawned_app, calls_app, sleeps_app, Hc, Hs.
  rewrite (not_go_spawned _ (preflight_no_go w)).
  rewrite (not_call_calls _ (preflight_no_call w)).
  rewrite (not_sleep_sleeps _ (preflight_no_sleep w)).
  split; [|done].
  pose proof (connect_no_go fuel w client 0) as Hgo.
  unfold all_events in Hgo.
  rewrite (connect_unreachable_trace w client Hdown fuel 0%nat) in Hgo.
  by rewrite (not_go_spawned _ Hgo).
Qed.

Lemma never_up_is_down i : is_Some (Leader w_unreachable i).
Proof. by eexists. Qed.

Lemma C4_unreachable_registry_retries_witness :
  outcome (main 1000 w_unreachable) = Halt Retrying
  ∧ spawned (trace (main 1000 w_unreachable)) = []
  ∧ calls (trace (main 1000 w_unreachable)) = replicate 1000 StatusLeader
  ∧ sleeps (trace (main 1000 w_unreachable)) = replicate 1000 10
  ∧ trace (main 1000 w_unreachable)
    = trace (preflight w_unreachable)
      ++ (seq 0 1000
            ≫= λ j, from_option
                      (failed_attempt {| Address := "127.0.0.1:8500" |}) []
                      (Leader w_unreachable j)).
Proof.
  apply (C4_unreachable_registry_retries w_unreachable
           (cfg true false) ["stdout"] {| Address := "127.0.0.1:8500" |} 1000).
  - vm_compute. reflexivity.
  - intros i. simpl. unfold never_up. eexists. reflexivity.
Defined.

(** C4 as stated fails: with a registry that never answers, no run of any
    length ends in an exit. *)
Lemma C4_unreachable_never_aborts :
  (∀ i, is_Some (Leader w_unreachable i))
  ∧ ¬ ∃ fuel code, outcome (main fuel w_unreachable) = Halt (Exited code).
Proof.
  split; [exact never_up_is_down|].
  intros (fuel & code & Hexit).
  rewrite (main_unreachable w_unreachable (cfg true false) ["stdout"]
             {| Address := "127.0.0.1:8500" |}) in Hexit.
  - discriminate Hexit.
  - vm_compute. reflexivity.
  - exact never_up_is_down.
Qed.

(** ** C9: the usage text *)

(** C9: with [--help], or with no path given to [-config], the run is:
    set up the logger, print the usage text, [os.Exit(0)]. Nothing else
    happens; in particular no configuration is read and no request goes to
    the registry. *)
Theorem C9_usage_exit_zero fuel w help config_path :
  flag_Parse w = Some (help, config_path) →
  help = true ∨ config_path = "" →
  main fuel w
  = ([EvSetFormatter; EvSetLevel DebugLevel; EvPrint usage], Halt (Exited 0)).
Proof.
  intros Hflags Hcase. unfold main, startup, preflight. rewrite Hflags.
  assert (help || bool_decide (config_path = "") = true) as Hcond.
  { destruct Hcase as [->| ->]; [done|]. by rewrite orb_true_r. }
  cbn. rewrite Hcond. reflexivity.
Qed.

Lemma C9_usage_exit_zero_witness :
  main 1 w_help
  = ([EvSetFormatter; EvSetLevel DebugLevel; EvPrint usage], Halt (Exited 0)).
Proof.
  apply (C9_usage_exit_zero 1 w_help true "").
  - reflexivity.
  - left. reflexivity.
Defined.

(** ** The watches of one service *)

Lemma service_watches_service w b ch kv g :
  g ∈ service_watches w b ch kv → ∃ tag opts, g = WatchService kv.1 tag opts.
Proof.
  unfold service_watches, tag_watches, whole_watch, tag_watch.
  intros Hg.
  repeat match type of Hg with
         | _ ∈ match ?x with _ => _ end => destruct x
         | _ ∈ if ?x then _ else _ => destruct x
         end;
    first [ apply list_elem_of_fmap in Hg as (tag & -> & _)
          | apply list_elem_of_singleton in Hg as -> ];
    eauto.
Qed.

Lemma filter_service_watches w b ch kv service :
  filter (λ g, watches_service service g) (service_watches w b ch kv)
  = if decide (kv.1 = service) then service_watches w b ch kv else [].
Proof.
  pose proof (service_watches_service w b ch kv) as Hall.
  induction (service_watches w b ch kv) as [|g gs IH].
  - by case_decide.
  - destruct (Hall g) as (tag & opts & ->); [left|].
    specialize (IH (λ g Hg, Hall g (list_elem_of_further _ _ _ Hg))).
    case_decide as Hk.
    + rewrite filter_cons_True by (simpl; by apply bool_decide_pack).
      by rewrite IH.
    + rewrite filter_cons_False
        by (simpl; by intros ?%bool_decide_unpack).
      exact IH.
Qed.

Lemma filter_bind_service_watches_fresh w b ch
    (l : list (string * list string)) service :
  service ∉ l.*1 →
  filter (λ g, watches_service service g) (l ≫= service_watches w b ch) = [].
Proof.
  induction l as [|kv l IH]; intros Hfresh; [done|].
  rewrite fmap_cons, not_elem_of_cons in Hfresh.
  destruct Hfresh as [Hne Hfresh].
  cbn [mbind list_bind]. rewrite filter_app, filter_service_watches.
  rewrite decide_False by done. by apply IH.
Qed.

Lemma filter_bind_service_watches w b ch (l : list (string * list string))
    service tags :
  NoDup l.*1 → (service, tags) ∈ l →
  filter (λ g, watches_service service g) (l ≫= service_watches w b ch)
  = service_watches w b ch (service, tags).
Proof.
  induction l as [|kv l IH]; intros Hnd Hin; [by apply elem_of_nil in Hin|].
  rewrite fmap_cons in Hnd. apply NoDup_cons in Hnd as [Hfresh Hnd].
  cbn [mbind list_bind]. rewrite filter_app, filter_service_watches.
  apply elem_of_cons in Hin as [<-|Hin].
  - rewrite decide_True by done.
    rewrite (filter_bind_service_watches_fresh w b ch l service Hfresh).
    by rewrite app_nil_r.
  - rewrite decide_False.
    + by apply IH.
    + intros Heq. apply Hfresh. rewrite Heq.
      change service with (service, tags).1. by apply list_elem_of_fmap_2.
Qed.

Lemma filter_node_watches b ch service (nodes : list string) :
  filter (λ g, watches_service service g) (node_watch b ch <$> nodes) = [].
Proof. induction nodes as [|node nodes IH]; [done|exact IH]. Qed.

Lemma range_services_NoDup w (m : gmap string (list string)) :
  NoDup (range_services w m).*1.
Proof.
  rewrite (range_services_perm w m). apply NoDup_fst_map_to_list.
Qed.

Lemma range_services_elem w (m : gmap string (list string)) service tags :
  (service, tags) ∈ range_services w m ↔ m !! service = Some tags.
Proof. rewrite (range_services_perm w m). apply elem_of_map_to_list. Qed.

(** The watches of a whole run that are watches of [service]. *)
Lemma main_service_watches fuel w b service tags :
  booted fuel w = Some b →
  b_services b !! service = Some tags →
  filter (λ g, watches_service service g) (spawned (trace (main fuel w)))
  = service_watches w b 0%nat (service, tags).
Proof.
  intros Hb%booted_Some Hs. rewrite main_spawned, Hb. unfold watches.
  rewrite filter_app, filter_node_watches, app_nil_r.
  apply filter_bind_service_watches.
  - apply range_services_NoDup.
  - by apply range_services_elem.
Qed.

(** ** C5: tags watched separately *)

Lemma filter_entity_service (gs : list Goroutine) service tag :
  filter (λ g, entity_of g = EService service tag) gs
  = filter (λ g, entity_of g = EService service tag)
      (filter (λ g, watches_service service g) gs).
Proof.
  induction gs as [|g gs IH]; [done|].
  destruct (decide (watches_service service g)) as [Hs|Hs].
  - rewrite (filter_cons_True (λ g, watches_service service g)) by done.
    destruct (decide (entity_of g = EService service tag)).
    + rewrite !(filter_cons_True (λ g, entity_of g = _)) by done.
      by rewrite IH.
    + rewrite !(filter_cons_False (λ g, entity_of g = _)) by done.
      exact IH.
  - rewrite (filter_cons_False (λ g, watches_service service g)) by done.
    rewrite filter_cons_False; [exact IH|].
    intros He. apply Hs. destruct g; simplify_eq/=.
    by apply bool_decide_pack.
Qed.

Lemma count_tag_watches sc b service ch tags tag :
  length (filter (λ g, entity_of g = EService service tag)
            (tag_watches sc b service ch tags))
  = if decide (tag ∈ ServiceConfig.IgnoredTags sc) then 0%nat
    else length (filter (λ t, t = tag) tags).
Proof.
  unfold tag_watches. induction tags as [|t tags IH].
  - by case_decide.
  - destruct (decide (t ∉ ServiceConfig.IgnoredTags sc)) as [Ht|Ht].
    + rewrite (filter_cons_True (λ tag, tag ∉ _)) by done.
      rewrite fmap_cons. destruct (decide (t = tag)) as [->|Hne].
      * rewrite filter_cons_True by done.
        rewrite decide_False in IH |- * by done.
        rewrite filter_cons_True by done. simpl. by rewrite IH.
      * rewrite filter_cons_False by (simpl; congruence).
        rewrite IH. case_decide; [done|].
        by rewrite (filter_cons_False (λ t, t = tag)).
    + rewrite (filter_cons_False (λ tag, tag ∉ _)) by done.
      rewrite IH. case_decide as Htag; [done|].
      rewrite (filter_cons_False (λ t, t = tag)); [done|].
      intros ->. by apply Ht.
Qed.

Lemma count_not_listed (tags : list string) tag :
  tag ∉ tags → filter (λ t, t = tag) tags = [].
Proof.
  induction tags as [|t tags IH]; intros Hnot; [done|].
  apply not_elem_of_cons in Hnot as [Hne Hnot].
  rewrite filter_cons_False by congruence. by apply IH.
Qed.

Lemma count_listed_once (tags : list string) tag :
  NoDup tags → tag ∈ tags → length (filter (λ t, t = tag) tags) = 1%nat.
Proof.
  induction 1 as [|t tags Hfresh Hnd IH]; [by intros ?%elem_of_nil|].
  intros [->|Hin]%elem_of_cons.
  - rewrite filter_cons_True by done. simpl.
    by rewrite count_not_listed.
  - rewrite filter_cons_False by (intros ->; done). by apply IH.
Qed.

(** C5 (as amended): for a service of the discovery whose configuration
    sets [DistinctTags] and whose tag list is not empty, the service
    watches started are, entry by entry of the tag list and in its order,
    one watch for each entry whose tag is not in [IgnoredTags], bound to
    that tag and to the threshold of the service's configuration. So a
    tag that is not ignored has as many watches as the list has entries
    for it, exactly one when no tag is listed twice, and no watch is
    bound to an ignored tag. *)
Theorem C5_watch_tags_separately fuel w b service tags sc :
  booted fuel w = Some b →
  b_services b !! service = Some tags →
  getServiceConfig w (b_config b) service = Some sc →
  ServiceConfig.DistinctTags sc = true →
  tags ≠ [] →
  filter (λ g, watches_service service g) (spawned (trace (main fuel w)))
  = (λ tag, WatchService service tag {|
       WatchOptions.changeThreshold := ServiceConfig.ChangeThreshold sc;
       WatchOptions.client := b_client b;
       WatchOptions.handlers := b_handlers b;
       WatchOptions.stopCh := Some 0%nat |})
    <$> filter (λ tag, tag ∉ ServiceConfig.IgnoredTags sc) tags
  ∧ (∀ tag,
       length (filter (λ g, entity_of g = EService service tag)
                 (spawned (trace (main fuel w))))
       = if decide (tag ∈ ServiceConfig.IgnoredTags sc) then 0%nat
         else length (filter (λ t, t = tag) tags))
  ∧ (∀ tag opts,
       tag ∈ ServiceConfig.IgnoredTags sc →
       WatchService service tag opts ∉ spawned (trace (main fuel w)))
  ∧ (NoDup tags →
     ∀ tag, tag ∈ tags → tag ∉ ServiceConfig.IgnoredTags sc →
       length (filter (λ g, entity_of g = EService service tag)
                 (spawned (trace (main fuel w)))) = 1%nat).
Proof.
  intros Hb Hs Hsc Hdistinct Htags.
  assert (Hstarted :
    filter (λ g, watches_service service g) (spawned (trace (main fuel w)))
    = tag_watches sc b service 0%nat tags).
  { rewrite (main_service_watches fuel w b service tags) by done.
    unfold service_watches. simpl. rewrite Hsc, Hdistinct.
    rewrite bool_decide_eq_true_2; [done|].
    destruct tags; [done|simpl; lia]. }
  assert (Hcount : ∀ tag,
    length (filter (λ g, entity_of g = EService service tag)
              (spawned (trace (main fuel w))))
    = if decide (tag ∈ ServiceConfig.IgnoredTags sc) then 0%nat
      else length (filter (λ t, t = tag) tags)).
  { intros tag. rewrite filter_entity_service, Hstarted.
    apply count_tag_watches. }
  split; [exact Hstarted|]. split; [exact Hcount|]. split.
  - intros tag opts Hignored Hin.
    specialize (Hcount tag). rewrite decide_True in Hcount by done.
    apply length_zero_iff_nil in Hcount.
    assert (Hf : WatchService service tag opts
                 ∈ filter (λ g, entity_of g = EService service tag)
                     (spawned (trace (main fuel w))))
      by (by apply list_elem_of_filter).
    rewrite Hcount in Hf. by apply elem_of_nil in Hf.
  - intros Hnd tag Hin Hnot. rewrite Hcount, decide_False by done.
    by apply count_listed_once.
Qed.

Lemma C5_watch_tags_separately_witness :
  ∃ b,
  booted 1 w_fleet = Some b ∧
  (filter (λ g, watches_service "redis" g) (spawned (trace (main 1 w_fleet)))
   = (λ tag, WatchService "redis" tag {|
        WatchOptions.changeThreshold := ServiceConfig.ChangeThreshold redis_cfg;
        WatchOptions.client := b_client b;
        WatchOptions.handlers := b_handlers b;
        WatchOptions.stopCh := Some 0%nat |})
     <$> filter (λ tag, tag ∉ ServiceConfig.IgnoredTags redis_cfg)
           ["alpha"; "beta"]
   ∧ (∀ tag,
        length (filter (λ g, entity_of g = EService "redis" tag)
                  (spawned (trace (main 1 w_fleet))))
        = if decide (tag ∈ ServiceConfig.IgnoredTags redis_cfg) then 0%nat
          else length (filter (λ t, t = tag) ["alpha"; "beta"]))
   ∧ (∀ tag opts,
        tag ∈ ServiceConfig.IgnoredTags redis_cfg →
        WatchService "redis" tag opts ∉ spawned (trace (main 1 w_fleet)))
   ∧ (NoDup ["alpha"; "beta"] →
      ∀ tag, tag ∈ ["alpha"; "beta"] →
        tag ∉ ServiceConfig.IgnoredTags redis_cfg →
        length (filter (λ g, entity_of g = EService "redis" tag)
                  (spawned (trace (main 1 w_fleet)))) = 1%nat)).
Proof.
  eexists. split; [vm_compute; reflexivity|].
  apply (C5_watch_tags_separately 1 w_fleet).
  - vm_compute. reflexivity.
  - vm_compute. reflexivity.
  - reflexivity.
  - reflexivity.
  - discriminate.
Defined.

(** C5 as stated fails: tag [v1] is not ignored and is listed twice for
    [api], which is watched tag by tag; two watches are bound to it, not
    exactly one. *)
Lemma C5_tag_listed_twice_gets_two_watches :
  ∃ b,
    booted 1 w_tag_listed_twice = Some b
    ∧ b_services b !! "api" = Some ["v1"; "v2"; "v1"]
    ∧ getServiceConfig w_tag_listed_twice (b_config b) "api"
      = Some api_distinct
    ∧ ServiceConfig.DistinctTags api_distinct = true
    ∧ ("v1" ∉ ServiceConfig.IgnoredTags api_distinct)
    ∧ length (filter (λ g, entity_of g = EService "api" "v1")
                (spawned (trace (main 1 w_tag_listed_twice)))) = 2%nat.
Proof.
  eexists. split; [vm_compute; reflexivity|].
  split; [vm_compute; reflexivity|].
  split; [reflexivity|]. split; [reflexivity|]. split.
  - apply (bool_decide_unpack
             ("v1" ∉ ServiceConfig.IgnoredTags api_distinct)).
    vm_compute. exact I.
  - vm_compute. reflexivity.
Qed.

(** ** C6: the threshold of a service watched as a whole *)

Lemma whole_service_uses_global_threshold fuel w b service tags sc :
  booted fuel w = Some b →
  b_services b !! service = Some tags →
  getServiceConfig w (b_config b) service = Some sc →
  tags = [] ∨ ServiceConfig.DistinctTags sc = false →
  filter (λ g, watches_service service g) (spawned (trace (main fuel w)))
  = [WatchService service "" {|
       WatchOptions.changeThreshold := Config.ChangeThreshold (b_config b);
       WatchOptions.client := b_client b;
       WatchOptions.handlers := b_handlers b;
       WatchOptions.stopCh := Some 0%nat |}].
Proof.
  intros Hb Hs Hsc Hwhole.
  rewrite (main_service_watches fuel w b service tags) by done.
  unfold service_watches. simpl. rewrite Hsc.
  destruct Hwhole as [->| ->]; [done|]. by rewrite andb_false_r.
Qed.

(** C6 fails on the code: service [web] has a configuration with a change
    threshold of 30 and is watched as a whole; its watch is started with
    the global threshold, 60. *)
Theorem C6_whole_service_watch_ignores_override :
  getServiceConfig w_override (cfg true false) "web" = Some web_whole
  ∧ ServiceConfig.ChangeThreshold web_whole = 30
  ∧ spawned (trace (main 1 w_override))
    = [WatchService "web" "" {|
         WatchOptions.changeThreshold := 60;
         WatchOptions.client := {| Address := "127.0.0.1:8500" |};
         WatchOptions.handlers := ["stdout"];
         WatchOptions.stopCh := Some 0%nat |}].
Proof. split; [done|]. split; [done|]. vm_compute. reflexivity. Qed.

(** ** C8: one watch per entity *)

Lemma entity_service_watches w b ch kv e :
  e ∈ entity_of <$> service_watches w b ch kv → ∃ tag, e = EService kv.1 tag.
Proof.
  intros (g & -> & Hg)%list_elem_of_fmap.
  apply service_watches_service in Hg as (tag & opts & ->). by exists tag.
Qed.

Lemma NoDup_entity_service_watches w b ch kv :
  NoDup kv.2 → NoDup (entity_of <$> service_watches w b ch kv).
Proof.
  intros Hnd. unfold service_watches.
  assert (Hwhole : NoDup (entity_of <$> [whole_watch b kv.1 ch])).
  { apply NoDup_singleton. }
  destruct (getServiceConfig w (b_config b) kv.1) as [sc|]; [|done].
  destruct (bool_decide (0 < length kv.2)%nat
            && ServiceConfig.DistinctTags sc); [|done].
  unfold tag_watches. rewrite <- list_fmap_compose.
  apply NoDup_fmap_2; [|by apply NoDup_filter].
  intros t1 t2 Heq. by simplify_eq/=.
Qed.

Lemma NoDup_entity_bind_service_watches w b ch
    (l : list (string * list string)) :
  NoDup l.*1 → Forall (λ kv, NoDup kv.2) l →
  NoDup (entity_of <$> (l ≫= service_watches w b ch)).
Proof.
  induction l as [|kv l IH]; intros Hkeys Htags; [constructor|].
  rewrite fmap_cons in Hkeys. apply NoDup_cons in Hkeys as [Hfresh Hkeys].
  apply Forall_cons in Htags as [Hkv Htags].
  cbn [mbind list_bind]. rewrite fmap_app. apply NoDup_app.
  split; [by apply NoDup_entity_service_watches|].
  split; [|by apply IH].
  intros e (tag & ->)%entity_service_watches
    (g & He & Hg)%list_elem_of_fmap.
  apply list_elem_of_bind in Hg as (kv' & Hg & Hkv').
  apply service_watches_service in Hg as (tag' & opts & ->).
  simpl in He. apply Hfresh. injection He as -> _.
  by apply list_elem_of_fmap_2.
Qed.

(** C8 (as amended): when no tag is listed twice for a service and no node
    name is listed twice, no two watches of a run watch the same entity. *)
Theorem C8_one_watch_per_entity fuel w b :
  booted fuel w = Some b →
  map_Forall (λ _ tags, NoDup tags) (b_services b) →
  NoDup (b_nodes b) →
  NoDup (entity_of <$> spawned (trace (main fuel w))).
Proof.
  intros Hb%booted_Some Htags Hnodes. rewrite main_spawned, Hb.
  unfold watches. rewrite fmap_app. apply NoDup_app.
  split; [|split].
  - apply NoDup_entity_bind_service_watches.
    + apply range_services_NoDup.
    + apply Forall_forall. intros [service tags] Hin.
      apply range_services_elem in Hin. by apply (Htags service tags).
  - intros e (g & -> & Hg)%list_elem_of_fmap (g' & He & Hg')%list_elem_of_fmap.
    apply list_elem_of_bind in Hg as (kv & Hg & _).
    apply service_watches_service in Hg as (tag & opts & ->).
    apply list_elem_of_fmap in Hg' as (node & -> & _). discriminate He.
  - rewrite <- list_fmap_compose.
    apply NoDup_fmap_2; [|done].
    intros n1 n2 Heq. by simplify_eq/=.
Qed.

Lemma C8_one_watch_per_entity_witness :
  NoDup (entity_of <$> spawned (trace (main 1 w_fleet))).
Proof.
  apply (C8_one_watch_per_entity 1 w_fleet b_fleet).
  - vm_compute. reflexivity.
  - apply (bool_decide_unpack
             (map_Forall (λ _ (tags : list string), NoDup tags)
                (b_services b_fleet))).
    vm_compute. exact I.
  - apply (bool_decide_unpack (NoDup (b_nodes b_fleet))).
    vm_compute. exact I.
Defined.

(** C8 as stated fails: a tag listed twice for a service watched tag by
    tag gets two watches, and so does a node listed twice. *)
Lemma C8_repeated_names_watched_twice :
  ¬ NoDup (entity_of <$> spawned (trace (main 1 w_repeated_tag)))
  ∧ ¬ NoDup (entity_of <$> spawned (trace (main 1 w_repeated_node))).
Proof.
  split; intros Hnd; vm_compute in Hnd;
    apply NoDup_cons in Hnd as [Hfresh _]; apply Hfresh; left.
Qed.

(** ** C7: the fixtures of DevMode *)

Lemma fixtures_registered_app tr1 tr2 :
  fixtures_registered (tr1 ++ tr2)
  = fixtures_registered tr1 ++ fixtures_registered tr2.
Proof. unfold fixtures_registered. by rewrite calls_app, omap_app. Qed.

Lemma fixtures_deregistered_app tr1 tr2 :
  fixtures_deregistered (tr1 ++ tr2)
  = fixtures_deregistered tr1 ++ fixtures_deregistered tr2.
Proof. unfold fixtures_deregistered. by rewrite calls_app, omap_app. Qed.

Lemma replay_app tr1 tr2 r : replay (tr1 ++ tr2) r = replay tr2 (replay tr1 r).
Proof. unfold replay. by rewrite calls_app, foldl_app. Qed.

Lemma not_fixture_quiet tr :
  Forall not_fixture tr →
  fixtures_registered tr = []
  ∧ fixtures_deregistered tr = []
  ∧ ∀ r, replay tr r = r.
Proof.
  induction 1 as [|e tr He _ (IH1 & IH2 & IH3)]; [done|].
  destruct e as [| | | | | | |c call| | | | | |]; try done.
  destruct call; try done; (split; [|split]); try done; intros r; apply IH3.
Qed.

Lemma preflight_no_fixture w : all_events not_fixture (preflight w).
Proof. unfold preflight, log_Fatal, log, os_Exit. repeat all_events_step. Qed.

Lemma connect_no_fixture fuel w client i :
  all_events not_fixture (connect fuel w client i).
Proof.
  revert i. induction fuel as [|fuel IH]; intros i; cbn [connect].
  - apply all_events_halt.
  - unfold log. repeat first [apply IH | all_events_step].
Qed.

Lemma discover_no_fixture w config client :
  all_events not_fixture (discover w config client).
Proof. unfold discover, log_Fatal, log, os_Exit. repeat all_events_step. Qed.

Lemma registerTestServices_run client :
  ∃ tr, registerTestServices client = (tr, Next tt)
        ∧ fixtures_registered tr = dev_fixtures
        ∧ fixtures_deregistered tr = []
        ∧ ∀ r, replay tr r =
               {| checks := {["memory usage"]} ∪ checks r;
                  services := {["nginx"]} ∪ ({["redis"]} ∪ services r) |}.
Proof. eexists. split; [reflexivity|]. done. Qed.

(** The trace of a start-up that gets through: the fixtures are
    registered, in DevMode, between two stretches that register and
    deregister nothing. *)
Lemma startup_trace fuel w b :
  outcome (startup fuel w) = Next b →
  ∃ before after,
    trace (startup fuel w)
    = before
      ++ (if Config.DevMode (b_config b)
          then trace (registerTestServices (b_client b)) else [])
      ++ after
    ∧ Forall not_fixture before ∧ Forall not_fixture after.
Proof.
  unfold startup. intros Hb. rewrite trace_bind. rewrite outcome_bind in Hb.
  pose proof (preflight_no_fixture w) as Hpre.
  destruct (outcome (preflight w)) as [[[config handlers] client]|s];
    [|discriminate Hb].
  cbv beta iota in Hb |- *.
  rewrite trace_bind. rewrite outcome_bind in Hb.
  pose proof (connect_no_fixture fuel w client 0) as Hconn.
  destruct (outcome (connect fuel w client 0)) as [[]|s]; [|discriminate Hb].
  cbv beta iota in Hb |- *.
  rewrite trace_bind. rewrite outcome_bind in Hb.
  assert (Hreg : outcome (if Config.DevMode config
                          then registerTestServices client else mret ())
                 = Next tt) by (by destruct (Config.DevMode config)).
  rewrite Hreg in Hb |- *. cbv beta iota in Hb |- *.
  rewrite trace_bind. rewrite outcome_bind in Hb.
  assert (Hlog : ∃ e,
    (if Config.GlobalMode config
     then log InfoLevel
            "Running in global mode, monitoring all nodes/services" []
     else log InfoLevel
            "Running in local mode, monitoring local agent's nodes/services"
            [])
    = ([e], Next tt) ∧ not_fixture e).
  { destruct (Config.GlobalMode config); eexists; split; done. }
  destruct Hlog as (e & Hlog & He). rewrite Hlog in Hb |- *.
  rewrite outcome_pair in Hb |- *. rewrite trace_pair.
  cbv beta iota in Hb |- *.
  rewrite trace_bind. rewrite outcome_bind in Hb.
  pose proof (discover_no_fixture w config client) as Hdisc.
  destruct (outcome (discover w config client)) as [[services nodes]|s];
    [|discriminate Hb].
  cbv beta iota in Hb |- *. injection Hb as <-. cbn [b_config b_client].
  exists (trace (preflight w) ++ trace (connect fuel w client 0)),
         ([e] ++ trace (discover w config client)).
  split; [|split].
  - cbn [trace fst mret Proc_ret].
    rewrite app_nil_r, <- !app_assoc. do 2 f_equal.
    by destruct (Config.DevMode config).
  - by apply Forall_app.
  - apply Forall_app. split; [by repeat constructor|done].
Qed.

(** What the start-up and [shutdown] of one run register and deregister,
    and what the two do to the agent's tables one after the other. *)
Lemma startup_shutdown_fixtures fuel w b opts :
  outcome (startup fuel w) = Next b →
  let sd := shutdown w (b_client b) (b_config b) opts in
  let fixtures := if Config.DevMode (b_config b) then dev_fixtures else [] in
  fixtures_registered (trace (startup fuel w)) = fixtures
  ∧ fixtures_deregistered (trace sd) = fixtures
  ∧ fixtures_deregistered (trace (startup fuel w)) = []
  ∧ fixtures_registered (trace sd) = []
  ∧ ∀ r,
      replay (trace sd) (replay (trace (startup fuel w)) r)
      = if Config.DevMode (b_config b) then
          {| checks := ({["memory usage"]} ∪ checks r) ∖ {["memory usage"]};
             services :=
               (({["nginx"]} ∪ ({["redis"]} ∪ services r)) ∖ {["redis"]})
               ∖ {["nginx"]} |}
        else r.
Proof.
  intros Hb sd fixtures. subst sd fixtures.
  destruct (startup_trace fuel w b Hb) as (before & after & -> & Hbefore & Hafter).
  apply not_fixture_quiet in Hbefore as (Hb1 & Hb2 & Hb3).
  apply not_fixture_quiet in Hafter as (Ha1 & Ha2 & Ha3).
  destruct (registerTestServices_run (b_client b)) as (reg & Hreg & Hr1 & Hr2 & Hr3).
  rewrite Hreg, trace_pair, shutdown_run, trace_pair.
  rewrite !fixtures_registered_app, !fixtures_deregistered_app, Hb1, Hb2, Ha1, Ha2.
  set (sends_tr := replicate _ _).
  assert (Hsends : Forall not_fixture sends_tr).
  { subst sends_tr. apply Forall_forall.
    by intros e [-> _]%elem_of_replicate. }
  apply not_fixture_quiet in Hsends as (Hs1 & Hs2 & Hs3).
  change (?e :: ?l ++ ?e' :: ?l') with ([e] ++ l ++ [e'] ++ l').
  rewrite !fixtures_registered_app, !fixtures_deregistered_app, Hs1, Hs2.
  unfold deregistrations.
  destruct (Config.DevMode (b_config b)).
  - rewrite Hr1, Hr2. repeat (split; [done|]).
    intros r. rewrite !replay_app, Hb3, Hr3, Ha3, Hs3. reflexivity.
  - repeat (split; [done|]).
    intros r. rewrite !replay_app, Hb3, Ha3, Hs3. done.
Qed.

(** C7 (as amended): in a run that gets through the start-up, the
    fixtures the start-up registers and the fixtures [shutdown]
    deregisters are the same: the check "memory usage" and the services
    "redis" and "nginx" in DevMode, none otherwise; the start-up
    deregisters nothing and [shutdown] registers nothing. On the agent's
    tables the start-up followed by [shutdown] of a DevMode run leaves
    every other ID as it was and the three IDs free, whatever was
    registered under them before: the tables are as they were exactly
    when the three IDs were free before the run. *)
Theorem C7_dev_fixtures_round_trip fuel w b opts :
  booted fuel w = Some b →
  let sd := shutdown w (b_client b) (b_config b) opts in
  let fixtures := if Config.DevMode (b_config b) then dev_fixtures else [] in
  fixtures_registered (trace (startup fuel w)) = fixtures
  ∧ fixtures_deregistered (trace sd) = fixtures
  ∧ fixtures_deregistered (trace (startup fuel w)) = []
  ∧ fixtures_registered (trace sd) = []
  ∧ (∀ r,
       replay (trace sd) (replay (trace (startup fuel w)) r)
       = if Config.DevMode (b_config b) then
           {| checks := checks r ∖ {["memory usage"]};
              services := (services r ∖ {["redis"]}) ∖ {["nginx"]} |}
         else r)
  ∧ ∀ r,
      "memory usage" ∉ checks r → "redis" ∉ services r →
      "nginx" ∉ services r →
      replay (trace sd) (replay (trace (startup fuel w)) r) = r.
Proof.
  intros Hb%booted_Some sd fixtures. subst sd fixtures.
  destruct (startup_shutdown_fixtures fuel w b opts Hb)
    as (H1 & H2 & H3 & H4 & Hreplay).
  repeat (split; [done|]). split.
  - intros r. rewrite Hreplay.
    destruct (Config.DevMode (b_config b)); [|done].
    f_equal; apply set_eq; intros y;
      rewrite !elem_of_difference, !elem_of_union, !elem_of_singleton;
      intuition congruence.
  - intros r Hmem Hredis Hnginx. rewrite Hreplay.
    destruct (Config.DevMode (b_config b)); [|done].
    destruct r as [cs ss]. simpl in *.
    f_equal; apply set_eq; intros y;
      rewrite !elem_of_difference, !elem_of_union, !elem_of_singleton;
      intuition congruence.
Qed.

Lemma C7_dev_fixtures_round_trip_witness :
  let opts := {| ShutdownOpts.stopCh := 0%nat; ShutdownOpts.count := 4 |} in
  let sd := shutdown w_fleet (b_client b_fleet) (b_config b_fleet) opts in
  let fixtures :=
    if Config.DevMode (b_config b_fleet) then dev_fixtures else [] in
  fixtures_registered (trace (startup 1 w_fleet)) = fixtures
  ∧ fixtures_deregistered (trace sd) = fixtures
  ∧ fixtures_deregistered (trace (startup 1 w_fleet)) = []
  ∧ fixtures_registered (trace sd) = []
  ∧ (∀ r,
       replay (trace sd) (replay (trace (startup 1 w_fleet)) r)
       = if Config.DevMode (b_config b_fleet) then
           {| checks := checks r ∖ {["memory usage"]};
              services := (services r ∖ {["redis"]}) ∖ {["nginx"]} |}
         else r)
  ∧ ∀ r,
      "memory usage" ∉ checks r → "redis" ∉ services r →
      "nginx" ∉ services r →
      replay (trace sd) (replay (trace (startup 1 w_fleet)) r) = r.
Proof.
  intros opts.
  apply (C7_dev_fixtures_round_trip 1 w_fleet b_fleet opts).
  vm_compute. reflexivity.
Defined.

(** C7 as stated fails: on an agent that already has a service registered
    under the ID [redis], the DevMode start-up followed by [shutdown]
    does not leave the registry as it was; that service is gone. *)
Lemma C7_round_trip_removes_earlier_redis :
  let opts := {| ShutdownOpts.stopCh := 0%nat; ShutdownOpts.count := 4 |} in
  let sd := shutdown w_fleet (b_client b_fleet) (b_config b_fleet) opts in
  booted 1 w_fleet = Some b_fleet
  ∧ Config.DevMode (b_config b_fleet) = true
  ∧ "redis" ∈ services registry_with_redis
  ∧ ("redis" ∉ services
        (replay (trace sd) (replay (trace (startup 1 w_fleet))
                              registry_with_redis)))
  ∧ replay (trace sd) (replay (trace (startup 1 w_fleet)) registry_with_redis)
    ≠ registry_with_redis.
Proof.
  intros opts sd.
  assert (Hb : booted 1 w_fleet = Some b_fleet) by (vm_compute; reflexivity).
  destruct (startup_shutdown_fixtures 1 w_fleet b_fleet opts
              (booted_Some _ _ _ Hb)) as (_ & _ & _ & _ & Hreplay).
  specialize (Hreplay registry_with_redis).
  change (Config.DevMode (b_config b_fleet)) with true in Hreplay.
  cbv iota in Hreplay.
  assert (Hin : "redis" ∈ services registry_with_redis)
    by (simpl; by apply elem_of_singleton).
  assert (Hout : "redis" ∉ services
            (replay (trace sd) (replay (trace (startup 1 w_fleet))
                                  registry_with_redis))).
  { subst sd. rewrite Hreplay. simpl.
    rewrite !elem_of_difference, !elem_of_singleton. tauto. }
  split; [done|]. split; [done|]. split; [done|]. split; [done|].
  intros Heq. apply Hout. by rewrite Heq.
Qed.

(** * Further properties of main.go *)

(** ** What a start-up that gets through has seen *)

Lemma preflight_inv w config handlers client :
  outcome (preflight w) = Next (config, handlers, client) →
  ∃ config_path level,
    flag_Parse w = Some (false, config_path)
    ∧ config_path ≠ ""
    ∧ ParseConfig w config_path = inl (config, handlers)
    ∧ ParseLevel w (Config.LogLevel config) = (level, None)
    ∧ NewClient w (Config.ConsulAddress config) = None
    ∧ client = {| Address := Config.ConsulAddress config |}.
Proof.
  unfold preflight. intros H.
  destruct (flag_Parse w) as [[help config_path]|]; [|discriminate H].
  destruct help; [discriminate H|].
  destruct (decide (config_path = "")) as [->|Hpath]; [discriminate H|].
  cbn in H. rewrite bool_decide_eq_false_2 in H by done. cbn in H.
  destruct (ParseConfig w config_path) as [[config' handlers']|err] eqn:Hcfg;
    [|discriminate H].
  cbn in H.
  destruct (ParseLevel w (Config.LogLevel config')) as [level [err|]] eqn:Hlvl;
    [discriminate H|].
  cbn in H.
  destruct (NewClient w (Config.ConsulAddress config')) as [err|] eqn:Hcl;
    [discriminate H|].
  cbn in H. injection H as <- <- <-.
  exists config_path, level. by rewrite Hlvl, Hcl.
Qed.

Lemma startup_inv fuel w b :
  outcome (startup fuel w) = Next b →
  outcome (preflight w) = Next (b_config b, b_handlers b, b_client b)
  ∧ outcome (connect fuel w (b_client b) 0) = Next tt
  ∧ outcome (discover w (b_config b) (b_client b))
    = Next (b_services b, b_nodes b).
Proof.
  unfold startup. intros Hb. rewrite outcome_bind in Hb.
  destruct (outcome (preflight w)) as [[[config handlers] client]|s];
    [|discriminate Hb].
  cbv beta iota in Hb. rewrite outcome_bind in Hb.
  destruct (outcome (connect fuel w client 0)) as [[]|s] eqn:Hconn;
    [|discriminate Hb].
  cbv beta iota in Hb. rewrite outcome_bind in Hb.
  assert (Hreg : outcome (if Config.DevMode config
                          then registerTestServices client else mret ())
                 = Next tt) by (by destruct (Config.DevMode config)).
  rewrite Hreg in Hb. cbv beta iota in Hb. rewrite outcome_bind in Hb.
  assert (Hlog :
    outcome
      (if Config.GlobalMode config
       then log InfoLevel
              "Running in global mode, monitoring all nodes/services" []
       else log InfoLevel
              "Running in local mode, monitoring local agent's nodes/services"
              [])
    = Next tt) by (by destruct (Config.GlobalMode config)).
  rewrite Hlog in Hb. cbv beta iota in Hb. rewrite outcome_bind in Hb.
  destruct (outcome (discover w config client)) as [[services nodes]|s]
    eqn:Hdisc; [|discriminate Hb].
  cbv beta iota in Hb. injection Hb as <-. simpl. by rewrite Hconn, Hdisc.
Qed.

(** The map main builds from the agent's registrations (lines 112-114). *)
Lemma discover_inv w config client services nodes :
  outcome (discover w config client) = Next (services, nodes) →
  if Config.GlobalMode config then
    Catalog_Services w = inl services
    ∧ nodes = match Catalog_Nodes w with inl ns => ns | inr _ => [] end
  else
    ∃ serviceMap,
      Agent_Services w = inl serviceMap
      ∧ services
        = foldl (λ (services : gmap string (list string)) kv,
                   <[Service kv.2 := Tags kv.2]> services)
            ∅ (range_agent w serviceMap)
      ∧ nodes = match Agent_NodeName w with inl n => [n] | inr _ => [] end.
Proof.
  unfold discover. intros H.
  destruct (Config.GlobalMode config).
  - destruct (Catalog_Services w) as [m|err]; [|discriminate H].
    destruct (Catalog_Nodes w) as [ns|err]; cbn in H; by injection H as <- <-.
  - destruct (Agent_Services w) as [m|err]; [|discriminate H].
    exists m. split; [done|].
    destruct (Agent_NodeName w) as [n|err]; cbn in H; by injection H as <- <-.
Qed.

(** ** Errors before the registry is contacted *)

(** X1: when the configuration file does not parse, the run is: set up
    the logger, read the file, log the error, [os.Exit(2)]. No client is
    built and no request goes to the registry. *)
Theorem X1_config_error_exits_two fuel w config_path err :
  flag_Parse w = Some (false, config_path) →
  config_path ≠ "" →
  ParseConfig w config_path = inr err →
  main fuel w
  = ([EvSetFormatter; EvSetLevel DebugLevel; EvParseConfig config_path;
      EvLog ErrorLevel "" [AErr err]],
     Halt (Exited 2)).
Proof.
  intros Hflags Hpath Hcfg. unfold main, startup, preflight.
  rewrite Hflags. cbn. rewrite bool_decide_eq_false_2 by done. cbn.
  by rewrite Hcfg.
Qed.

Lemma X1_config_error_exits_two_witness :
  main 1 w_bad_config
  = ([EvSetFormatter; EvSetLevel DebugLevel;
      EvParseConfig "/etc/consul-alerting.hcl";
      EvLog ErrorLevel "" [AErr "unexpected token"]],
     Halt (Exited 2)).
Proof.
  apply (X1_config_error_exits_two 1 w_bad_config
           "/etc/consul-alerting.hcl" "unexpected token").
  - reflexivity.
  - discriminate.
  - reflexivity.
Defined.

(** X2: when the configured log level is not one logrus knows, the run
    logs the error together with the level [ParseLevel] returned beside it
    (not the configured string) and ends in [os.Exit(2)]; the level of the
    logger stays at Debug, no client is built and no request goes to the
    registry. *)
Theorem X2_log_level_error_exits_two fuel w config_path config handlers
    level err :
  flag_Parse w = Some (false, config_path) →
  config_path ≠ "" →
  ParseConfig w config_path = inl (config, handlers) →
  ParseLevel w (Config.LogLevel config) = (level, Some err) →
  main fuel w
  = ([EvSetFormatter; EvSetLevel DebugLevel; EvParseConfig config_path;
      EvLog ErrorLevel "Error setting loglevel '%s': %s"
        [ALevel level; AErr err]],
     Halt (Exited 2)).
Proof.
  intros Hflags Hpath Hcfg Hlvl. unfold main, startup, preflight.
  rewrite Hflags. cbn. rewrite bool_decide_eq_false_2 by done. cbn.
  rewrite Hcfg. cbn. by rewrite Hlvl.
Qed.

Lemma X2_log_level_error_exits_two_witness :
  main 1 w_bad_level
  = ([EvSetFormatter; EvSetLevel DebugLevel;
      EvParseConfig "/etc/consul-alerting.hcl";
      EvLog ErrorLevel "Error setting loglevel '%s': %s"
        [ALevel PanicLevel; AErr "not a valid logrus Level"]],
     Halt (Exited 2)).
Proof.
  apply (X2_log_level_error_exits_two 1 w_bad_level
           "/etc/consul-alerting.hcl" (cfg true true) ["stdout"]).
  - reflexivity.
  - discriminate.
  - reflexivity.
  - reflexivity.
Defined.

(** X3: when the client cannot be built, the error is logged with
    [log.Fatal] and the process exits with status 1, after the log level
    of the configuration was applied and before any request to the
    registry. *)
Theorem X3_client_error_exits_one fuel w config_path config handlers level
    err :
  flag_Parse w = Some (false, config_path) →
  config_path ≠ "" →
  ParseConfig w config_path = inl (config, handlers) →
  ParseLevel w (Config.LogLevel config) = (level, None) →
  NewClient w (Config.ConsulAddress config) = Some err →
  main fuel w
  = ([EvSetFormatter; EvSetLevel DebugLevel; EvParseConfig config_path;
      EvSetLevel level; EvNewClient (Config.ConsulAddress config);
      EvLog FatalLevel "Error initializing client: " [AErr err]],
     Halt (Exited 1)).
Proof.
  intros Hflags Hpath Hcfg Hlvl Hcl. unfold main, startup, preflight.
  rewrite Hflags. cbn. rewrite bool_decide_eq_false_2 by done. cbn.
  rewrite Hcfg. cbn. rewrite Hlvl. cbn. by rewrite Hcl.
Qed.

Lemma X3_client_error_exits_one_witness :
  main 1 w_bad_client
  = ([EvSetFormatter; EvSetLevel DebugLevel;
      EvParseConfig "/etc/consul-alerting.hcl";
      EvSetLevel InfoLevel; EvNewClient "127.0.0.1:8500";
      EvLog FatalLevel "Error initializing client: "
        [AErr "invalid address"]],
     Halt (Exited 1)).
Proof.
  apply (X3_client_error_exits_one 1 w_bad_client
           "/etc/consul-alerting.hcl" (cfg true true) ["stdout"] InfoLevel).
  - reflexivity.
  - discriminate.
  - reflexivity.
  - reflexivity.
  - reflexivity.
Defined.

(** ** The leader loop *)

Lemma connect_until w client n :
  Leader w n = None →
  (∀ j, (j < n)%nat → is_Some (Leader w j)) →
  ∀ fuel i, (i ≤ n < i + fuel)%nat →
    connect fuel w client i
    = ((seq i (n - i)
          ≫= λ j, from_option (failed_attempt client) [] (Leader w j))
       ++ [EvCall client StatusLeader],
       Next tt).
Proof.
  intros Hup Hdown. induction fuel as [|fuel IH]; intros i Hi; [lia|].
  cbn [connect]. destruct (decide (i = n)) as [->|Hne].
  - rewrite Hup, Nat.sub_diag. reflexivity.
  - destruct (Hdown i ltac:(lia)) as [err Herr]. rewrite Herr.
    rewrite (IH (S i)) by lia.
    replace (n - i)%nat with (S (n - S i)) by lia.
    cbn [seq mbind list_bind]. rewrite Herr. reflexivity.
Qed.

(** X4: when the registry first answers the leader query at attempt [n]
    (counted from 0), the loop of lines 67-75 leaves after [n] failed
    attempts, each one logged twice and followed by a sleep of 10
    seconds, and one successful query: [n + 1] queries and [n] sleeps,
    whatever bound above [n] is put on the attempts looked at. *)
Theorem X4_connect_retries_until_leader w client n fuel :
  Leader w n = None →
  (∀ j, (j < n)%nat → is_Some (Leader w j)) →
  (n < fuel)%nat →
  connect fuel w client 0
  = ((seq 0 n ≫= λ j, from_option (failed_attempt client) [] (Leader w j))
     ++ [EvCall client StatusLeader],
     Next tt)
  ∧ calls (trace (connect fuel w client 0)) = replicate (S n) StatusLeader
  ∧ sleeps (trace (connect fuel w client 0)) = replicate n 10.
Proof.
  intros Hup Hdown Hfuel.
  assert (Hrun := connect_until w client n Hup Hdown fuel 0%nat).
  rewrite Nat.sub_0_r in Hrun. specialize (Hrun ltac:(lia)). rewrite Hrun, trace_pair.
  split; [done|].
  destruct (failed_attempts_calls_sleeps w client (seq 0 n)) as [Hc Hs].
  { intros j Hj%elem_of_seq. apply Hdown. lia. }
  rewrite calls_app, sleeps_app, Hc, Hs, length_seq. split.
  - change (calls [EvCall client StatusLeader])
      with (replicate 1 StatusLeader).
    rewrite <- replicate_add. f_equal. lia.
  - change (sleeps [EvCall client StatusLeader]) with (@nil Z).
    by rewrite app_nil_r.
Qed.

Lemma X4_connect_retries_until_leader_witness :
  let client := {| Address := "127.0.0.1:8500" |} in
  connect 7 w_slow client 0
  = ((seq 0 2 ≫= λ j, from_option (failed_attempt client) []
                        (Leader w_slow j))
     ++ [EvCall client StatusLeader],
     Next tt)
  ∧ calls (trace (connect 7 w_slow client 0)) = replicate 3 StatusLeader
  ∧ sleeps (trace (connect 7 w_slow client 0)) = replicate 2 10.
Proof.
  intros client.
  apply (X4_connect_retries_until_leader w_slow client 2 7).
  - reflexivity.
  - intros j Hj. destruct j as [|[|j]]; [by eexists..|lia].
  - lia.
Defined.

(** ** The run up to the discovery *)

Lemma startup_unfold fuel w config handlers client :
  outcome (preflight w) = Next (config, handlers, client) →
  outcome (connect fuel w client 0) = Next tt →
  trace (startup fuel w)
  = trace (preflight w) ++ trace (connect fuel w client 0)
    ++ (if Config.DevMode config
        then trace (registerTestServices client) else [])
    ++ [EvLog InfoLevel
          (if Config.GlobalMode config
           then "Running in global mode, monitoring all nodes/services"
           else "Running in local mode, monitoring local agent's nodes/services")
          []]
    ++ trace (discover w config client)
  ∧ outcome (startup fuel w)
    = match outcome (discover w config client) with
      | Next (services, nodes) =>
          Next {| b_config := config; b_handlers := handlers;
                  b_client := client; b_services := services;
                  b_nodes := nodes |}
      | Halt s => Halt s
      end.
Proof.
  intros Hpre Hconn. unfold startup.
  rewrite ?trace_bind, ?outcome_bind, Hpre. cbv beta iota.
  rewrite ?trace_bind, ?outcome_bind, Hconn. cbv beta iota.
  assert (Hreg : outcome (if Config.DevMode config
                          then registerTestServices client else mret ())
                 = Next tt) by (by destruct (Config.DevMode config)).
  rewrite ?trace_bind, ?outcome_bind, Hreg. cbv beta iota.
  assert (Hlog :
    (if Config.GlobalMode config
     then log InfoLevel
            "Running in global mode, monitoring all nodes/services" []
     else log InfoLevel
            "Running in local mode, monitoring local agent's nodes/services"
            [])
    = ([EvLog InfoLevel
          (if Config.GlobalMode config
           then "Running in global mode, monitoring all nodes/services"
           else "Running in local mode, monitoring local agent's nodes/services")
          []], Next tt)) by (by destruct (Config.GlobalMode config)).
  rewrite ?trace_bind, ?outcome_bind, Hlog, trace_pair, outcome_pair.
  cbv beta iota.
  rewrite ?trace_bind, ?outcome_bind.
  assert (Hregtr :
    trace (if Config.DevMode config
           then registerTestServices client else mret ())
    = if Config.DevMode config
      then trace (registerTestServices client) else [])
    by (by destruct (Config.DevMode config)).
  rewrite Hregtr.
  destruct (outcome (discover w config client)) as [[services nodes]|s];
    cbv beta iota.
  - change (trace (mret ?x)) with (@nil Event).
    by rewrite !app_nil_r.
  - by rewrite !app_nil_r.
Qed.

Lemma discover_fatal w config client :
  match Config.GlobalMode config with
  | true => ∃ err, Catalog_Services w = inr err
  | false => ∃ err, Agent_Services w = inr err
  end →
  outcome (discover w config client) = Halt (Exited 1).
Proof.
  unfold discover. destruct (Config.GlobalMode config); intros [err ->]; done.
Qed.

(** X5: when the services cannot be listed (from the catalog in global
    mode, from the agent in local mode), the process exits with status 1
    and has started no watch. In DevMode the three fixtures are registered
    by then, and this exit leaves them registered: nothing is
    deregistered on that path. *)
Theorem X5_service_discovery_failure_is_fatal fuel w config handlers client :
  outcome (preflight w) = Next (config, handlers, client) →
  outcome (connect fuel w client 0) = Next tt →
  match Config.GlobalMode config with
  | true => ∃ err, Catalog_Services w = inr err
  | false => ∃ err, Agent_Services w = inr err
  end →
  outcome (main fuel w) = Halt (Exited 1)
  ∧ spawned (trace (main fuel w)) = []
  ∧ fixtures_registered (trace (main fuel w))
    = (if Config.DevMode config then dev_fixtures else [])
  ∧ fixtures_deregistered (trace (main fuel w)) = [].
Proof.
  intros Hpre Hconn Hfail.
  pose proof (discover_fatal w config client Hfail) as Hdisc.
  destruct (startup_unfold fuel w config handlers client Hpre Hconn)
    as [Htr Hout].
  rewrite Hdisc in Hout. rewrite main_run, Hout, outcome_pair, trace_pair.
  split; [done|]. split; [apply not_go_spawned, startup_no_go|].
  rewrite Htr.
  destruct (not_fixture_quiet _ (preflight_no_fixture w)) as (Hp1 & Hp2 & _).
  destruct (not_fixture_quiet _ (connect_no_fixture fuel w client 0))
    as (Hc1 & Hc2 & _).
  destruct (not_fixture_quiet _ (discover_no_fixture w config client))
    as (Hd1 & Hd2 & _).
  destruct (registerTestServices_run client) as (reg & Hreg & Hr1 & Hr2 & _).
  rewrite !fixtures_registered_app, !fixtures_deregistered_app.
  rewrite Hp1, Hp2, Hc1, Hc2, Hd1, Hd2, Hreg, trace_pair.
  destruct (Config.DevMode config).
  - rewrite Hr1, Hr2. by rewrite !app_nil_r.
  - done.
Qed.

Lemma X5_service_discovery_failure_is_fatal_witness :
  outcome (main 1 w_no_services) = Halt (Exited 1)
  ∧ spawned (trace (main 1 w_no_services)) = []
  ∧ fixtures_registered (trace (main 1 w_no_services))
    = (if Config.DevMode (cfg true true) then dev_fixtures else [])
  ∧ fixtures_deregistered (trace (main 1 w_no_services)) = [].
Proof.
  apply (X5_service_discovery_failure_is_fatal 1 w_no_services
           (cfg true true) ["stdout"] {| Address := "127.0.0.1:8500" |}).
  - vm_compute. reflexivity.
  - vm_compute. reflexivity.
  - simpl. eexists. reflexivity.
Defined.

(** ** The node watches *)





(** ** The services of local mode *)

Lemma agent_fold_snoc (l : list (string * AgentService)) kv :
  foldl (λ (services : gmap string (list string)) kv,
           <[Service kv.2 := Tags kv.2]> services) ∅ (l ++ [kv])
  = <[Service kv.2 := Tags kv.2]>
      (foldl (λ (services : gmap string (list string)) kv,
                <[Service kv.2 := Tags kv.2]> services) ∅ l).
Proof. by rewrite foldl_app. Qed.

Lemma agent_fold_lookup (l : list (string * AgentService)) name tags :
  foldl (λ (services : gmap string (list string)) kv,
           <[Service kv.2 := Tags kv.2]> services) ∅ l !! name = Some tags →
  ∃ kv, kv ∈ l ∧ Service kv.2 = name ∧ Tags kv.2 = tags.
Proof.
  induction l as [|kv l IH] using rev_ind;
    [simpl; by rewrite lookup_empty|].
  rewrite agent_fold_snoc.
  destruct (decide (Service kv.2 = name)) as [<-|Hne].
  - rewrite lookup_insert_eq. intros [= <-].
    exists kv. split; [apply elem_of_app; right; by left|done].
  - rewrite lookup_insert_ne by done. intros (kv' & Hin & Hs)%IH.
    exists kv'. split; [apply elem_of_app; by left|done].
Qed.

Lemma agent_fold_agree (l : list (string * AgentService)) kv :
  (∀ kv1 kv2, kv1 ∈ l → kv2 ∈ l →
     Service kv1.2 = Service kv2.2 → Tags kv1.2 = Tags kv2.2) →
  kv ∈ l →
  foldl (λ (services : gmap string (list string)) kv,
           <[Service kv.2 := Tags kv.2]> services) ∅ l !! Service kv.2
  = Some (Tags kv.2).
Proof.
  induction l as [|kv' l IH] using rev_ind;
    intros Hagree Hin; [by apply elem_of_nil in Hin|].
  rewrite agent_fold_snoc.
  destruct (decide (Service kv'.2 = Service kv.2)) as [Heq|Hne].
  - rewrite Heq, lookup_insert_eq. f_equal.
    apply Hagree; [apply elem_of_app; right; by left|done|done].
  - rewrite lookup_insert_ne by done.
    apply elem_of_app in Hin as [Hin|Hin%list_elem_of_singleton];
      [|by subst].
    apply IH; [|done].
    intros kv1 kv2 H1 H2. apply Hagree; apply elem_of_app; by left.
Qed.

Lemma range_agent_elem w (m : gmap string AgentService) id a :
  (id, a) ∈ range_agent w m ↔ m !! id = Some a.
Proof. rewrite (range_agent_perm w m). apply elem_of_map_to_list. Qed.

(** X7: in local mode the services watched are the [Service] names of the
    agent's registrations: every entry of the map main builds comes from a
    registration with that name and those tags, every registration's name
    has an entry, so several registrations of one name make one entry;
    and when registrations of the same name carry the same tags, the
    entry of each name has exactly those tags. *)
Theorem X7_local_services_from_agent fuel w b serviceMap :
  booted fuel w = Some b →
  Config.GlobalMode (b_config b) = false →
  Agent_Services w = inl serviceMap →
  (∀ name tags, b_services b !! name = Some tags →
     ∃ id a, serviceMap !! id = Some a ∧ Service a = name ∧ Tags a = tags)
  ∧ (∀ id a, serviceMap !! id = Some a →
       is_Some (b_services b !! Service a))
  ∧ ((∀ id1 a1 id2 a2,
        serviceMap !! id1 = Some a1 → serviceMap !! id2 = Some a2 →
        Service a1 = Service a2 → Tags a1 = Tags a2) →
     ∀ id a, serviceMap !! id = Some a →
       b_services b !! Service a = Some (Tags a)).
Proof.
  intros Hb%booted_Some Hlocal Hagent.
  apply startup_inv in Hb as (_ & _ & Hdisc). apply discover_inv in Hdisc.
  rewrite Hlocal in Hdisc. destruct Hdisc as (m & Hm & -> & _).
  rewrite Hagent in Hm. injection Hm as <-.
  assert (Hdom : ∀ id a, serviceMap !! id = Some a →
    is_Some (foldl (λ (services : gmap string (list string)) kv,
                      <[Service kv.2 := Tags kv.2]> services) ∅
               (range_agent w serviceMap) !! Service a)).
  { intros id a Hin%(range_agent_elem w).
    revert Hin. generalize (range_agent w serviceMap). intros l.
    induction l as [|kv l IH] using rev_ind; [by intros ?%elem_of_nil|].
    rewrite agent_fold_snoc. intros Hin.
    destruct (decide (Service kv.2 = Service a)) as [Heq|Hne].
    - rewrite Heq, lookup_insert_eq. by eexists.
    - rewrite lookup_insert_ne by done.
      apply elem_of_app in Hin as [Hin|Hin%list_elem_of_singleton];
        [by apply IH|by subst]. }
  split; [|split; [exact Hdom|]].
  - intros name tags ([id a] & Hin & Hs & Ht)%agent_fold_lookup.
    apply range_agent_elem in Hin. by exists id, a.
  - intros Hagree id a Hin%(range_agent_elem w).
    apply (agent_fold_agree _ (id, a)); [|done].
    intros [id1 a1] [id2 a2] H1%range_agent_elem H2%range_agent_elem.
    by apply (Hagree id1 a1 id2 a2).
Qed.

Lemma X7_local_services_from_agent_witness :
  (∀ name tags, b_services b_agent !! name = Some tags →
     ∃ id a, agent_three !! id = Some a ∧ Service a = name ∧ Tags a = tags)
  ∧ (∀ id a, agent_three !! id = Some a →
       is_Some (b_services b_agent !! Service a))
  ∧ ((∀ id1 a1 id2 a2,
        agent_three !! id1 = Some a1 → agent_three !! id2 = Some a2 →
        Service a1 = Service a2 → Tags a1 = Tags a2) →
     ∀ id a, agent_three !! id = Some a →
       b_services b_agent !! Service a = Some (Tags a)).
Proof.
  apply (X7_local_services_from_agent 1 w_agent b_agent agent_three).
  - vm_compute. reflexivity.
  - reflexivity.
  - reflexivity.
Defined.

(** ** The service watches *)

(** X8: a service of the discovery that has no per-service configuration,
    or whose configuration does not set [DistinctTags], or that has no
    tags, gets exactly one watch: on the whole service (tag [""]), with
    the global change threshold and the stop channel. *)
Theorem X8_one_watch_for_a_whole_service fuel w b service tags :
  booted fuel w = Some b →
  b_services b !! service = Some tags →
  (∀ sc, getServiceConfig w (b_config b) service = Some sc →
         tags = [] ∨ ServiceConfig.DistinctTags sc = false) →
  filter (λ g, watches_service service g) (spawned (trace (main fuel w)))
  = [WatchService service "" {|
       WatchOptions.changeThreshold := Config.ChangeThreshold (b_config b);
       WatchOptions.client := b_client b;
       WatchOptions.handlers := b_handlers b;
       WatchOptions.stopCh := Some 0%nat |}].
Proof.
  intros Hb Hs Hwhole.
  rewrite (main_service_watches fuel w b service tags) by done.
  unfold service_watches. simpl.
  destruct (getServiceConfig w (b_config b) service) as [sc|]; [|done].
  destruct (Hwhole sc eq_refl) as [->| ->]; [done|].
  by rewrite andb_false_r.
Qed.

Lemma X8_one_watch_for_a_whole_service_witness :
  filter (λ g, watches_service "nginx" g) (spawned (trace (main 1 w_fleet)))
  = [WatchService "nginx" "" {|
       WatchOptions.changeThreshold := Config.ChangeThreshold (b_config b_fleet);
       WatchOptions.client := b_client b_fleet;
       WatchOptions.handlers := b_handlers b_fleet;
       WatchOptions.stopCh := Some 0%nat |}].
Proof.
  apply (X8_one_watch_for_a_whole_service 1 w_fleet b_fleet "nginx"
           ["gamma"; "delta"]).
  - vm_compute. reflexivity.
  - vm_compute. reflexivity.
  - intros sc Hsc. discriminate Hsc.
Defined.

(** X9: a service watched tag by tag whose tags are all in [IgnoredTags]
    gets no watch at all, not even one on the whole service. *)
Theorem X9_all_tags_ignored_no_watch fuel w b service tags sc :
  booted fuel w = Some b →
  b_services b !! service = Some tags →
  getServiceConfig w (b_config b) service = Some sc →
  ServiceConfig.DistinctTags sc = true →
  tags ≠ [] →
  (∀ tag, tag ∈ tags → tag ∈ ServiceConfig.IgnoredTags sc) →
  filter (λ g, watches_service service g) (spawned (trace (main fuel w))) = [].
Proof.
  intros Hb Hs Hsc Hdistinct Htags Hignored.
  rewrite (main_service_watches fuel w b service tags) by done.
  unfold service_watches. simpl. rewrite Hsc, Hdistinct.
  rewrite bool_decide_eq_true_2 by (destruct tags; [done|simpl; lia]).
  simpl. unfold tag_watches.
  assert (Hnone : filter (λ tag, tag ∉ ServiceConfig.IgnoredTags sc) tags = []).
  { clear Hs Htags. induction tags as [|t tags IH]; [done|].
    rewrite filter_cons_False.
    - apply IH. intros tag Htag. apply Hignored. by right.
    - intros Hnot. apply Hnot, Hignored. left. }
  by rewrite Hnone.
Qed.

Lemma X9_all_tags_ignored_no_watch_witness :
  filter (λ g, watches_service "web" g)
         (spawned (trace (main 1 w_all_ignored))) = [].
Proof.
  apply (X9_all_tags_ignored_no_watch 1 w_all_ignored b_all_ignored "web"
           ["a"; "b"; "a"] all_ignored).
  - vm_compute. reflexivity.
  - vm_compute. reflexivity.
  - reflexivity.
  - reflexivity.
  - discriminate.
  - apply Forall_forall.
    apply (bool_decide_unpack
             (Forall (λ tag, tag ∈ ServiceConfig.IgnoredTags all_ignored)
                ["a"; "b"; "a"])).
    vm_compute. exact I.
Defined.

(** ** What every watch is given, and what is watched *)

Lemma watches_inv w b g :
  g ∈ watches w b →
  (∃ service tags tag threshold,
     b_services b !! service = Some tags
     ∧ (tag = "" ∨ tag ∈ tags)
     ∧ g = WatchService service tag (watch_opts b threshold (Some 0%nat)))
  ∨ (∃ node stop,
       node ∈ b_nodes b
       ∧ g = WatchNode node
               (watch_opts b (Config.ChangeThreshold (b_config b)) stop)).
Proof.
  unfold watches. intros [Hg|Hg]%elem_of_app.
  - left. apply list_elem_of_bind in Hg as ([service tags] & Hg & Hkv).
    apply range_services_elem in Hkv. exists service, tags.
    unfold service_watches in Hg. simpl in Hg.
    assert (Hwhole : g ∈ [whole_watch b service 0%nat] →
      ∃ tag threshold,
        b_services b !! service = Some tags
        ∧ (tag = "" ∨ tag ∈ tags)
        ∧ g = WatchService service tag (watch_opts b threshold (Some 0%nat))).
    { intros ->%list_elem_of_singleton.
      exists "", (Config.ChangeThreshold (b_config b)). by auto. }
    destruct (getServiceConfig w (b_config b) service) as [sc|];
      [|by apply Hwhole].
    destruct (bool_decide (0 < length tags)%nat
              && ServiceConfig.DistinctTags sc); [|by apply Hwhole].
    unfold tag_watches in Hg.
    apply list_elem_of_fmap in Hg as (tag & -> & Htag).
    apply list_elem_of_filter in Htag as [_ Htag].
    exists tag, (ServiceConfig.ChangeThreshold sc). by auto.
  - right. apply list_elem_of_fmap in Hg as (node & -> & Hnode).
    by exists node,
      (if Config.GlobalMode (b_config b) then Some 0%nat else None).
Qed.

(** X10: every watch of a run is given the handlers that [ParseConfig]
    returned for the path of the command line, and the client built for
    the [ConsulAddress] of that configuration. *)
Theorem X10_watches_share_client_and_handlers fuel w b g :
  booted fuel w = Some b →
  g ∈ spawned (trace (main fuel w)) →
  ∃ config_path,
    flag_Parse w = Some (false, config_path)
    ∧ ParseConfig w config_path = inl (b_config b, b_handlers b)
    ∧ WatchOptions.client (opts_of g)
      = {| Address := Config.ConsulAddress (b_config b) |}
    ∧ WatchOptions.handlers (opts_of g) = b_handlers b.
Proof.
  intros Hb%booted_Some Hg. rewrite main_spawned, Hb in Hg.
  apply startup_inv in Hb as (Hpre & _ & _).
  apply preflight_inv in Hpre
    as (config_path & level & Hflags & _ & Hcfg & _ & _ & Hclient).
  exists config_path. split; [done|]. split; [done|].
  apply watches_inv in Hg
    as [(service & tags & tag & threshold & _ & _ & ->)
       |(node & stop & _ & ->)]; simpl; by rewrite <- Hclient.
Qed.

Lemma X10_watches_share_client_and_handlers_witness :
  ∃ config_path,
    flag_Parse w_fleet = Some (false, config_path)
    ∧ ParseConfig w_fleet config_path
      = inl (b_config b_fleet, b_handlers b_fleet)
    ∧ WatchOptions.client
        (opts_of (WatchNode "node2"
                    (watch_opts b_fleet 60 (Some 0%nat))))
      = {| Address := Config.ConsulAddress (b_config b_fleet) |}
    ∧ WatchOptions.handlers
        (opts_of (WatchNode "node2"
                    (watch_opts b_fleet 60 (Some 0%nat))))
      = b_handlers b_fleet.
Proof.
  apply (X10_watches_share_client_and_handlers 1 w_fleet b_fleet
           (WatchNode "node2" (watch_opts b_fleet 60 (Some 0%nat)))).
  - vm_compute. reflexivity.
  - vm_compute. do 3 right. left.
Defined.

(** X11: the run watches nothing that the discovery did not return: a
    service watch is for a service of the map, on the whole service or
    on one of the tags listed for it, and a node watch is for a node of
    the list. *)
Theorem X11_only_discovered_entities_watched fuel w b :
  booted fuel w = Some b →
  (∀ service tag opts,
     WatchService service tag opts ∈ spawned (trace (main fuel w)) →
     ∃ tags, b_services b !! service = Some tags ∧ (tag = "" ∨ tag ∈ tags))
  ∧ (∀ node opts,
       WatchNode node opts ∈ spawned (trace (main fuel w)) →
       node ∈ b_nodes b).
Proof.
  intros Hb%booted_Some. rewrite main_spawned, Hb.
  split.
  - intros service tag opts
      [(s & tags & t & th & Hs & Ht & [= -> -> _])
      |(node & stop & _ & [=])]%watches_inv.
    by exists tags.
  - intros node opts
      [(s & tags & t & th & _ & _ & [=])
      |(n & stop & Hn & [= -> _])]%watches_inv.
    done.
Qed.

Lemma X11_only_discovered_entities_watched_witness :
  (∀ service tag opts,
     WatchService service tag opts ∈ spawned (trace (main 1 w_fleet)) →
     ∃ tags, b_services b_fleet !! service = Some tags
             ∧ (tag = "" ∨ tag ∈ tags))
  ∧ (∀ node opts,
       WatchNode node opts ∈ spawned (trace (main 1 w_fleet)) →
       node ∈ b_nodes b_fleet).
Proof.
  apply (X11_only_discovered_entities_watched 1 w_fleet b_fleet).
  vm_compute. reflexivity.
Defined.

(** ** A whole run, from the command line to the signals *)

Lemma for_range_all_events {A S} P (body : S → A → Proc S) l s :
  (∀ s x, all_events P (body s x)) → all_events P (for_range body l s).
Proof.
  intros Hbody. revert s. induction l as [|x l IH]; intros s; cbn [for_range].
  - apply all_events_ret.
  - apply all_events_bind; [apply Hbody|apply IH].
Qed.

Lemma start_watches_bootstrap_events w b :
  all_events bootstrap_event (start_watches w b).
Proof.
  unfold start_watches, log.
  apply all_events_bind; [by apply all_events_emit|]; intros _.
  apply all_events_bind.
  - apply for_range_all_events. intros so [service tags].
    unfold watch_service, watch_whole, log.
    repeat first
      [ apply for_range_all_events; intros; unfold watch_tag
      | all_events_step ].
  - intros so.
    apply all_events_bind; [by apply all_events_emit|]; intros _.
    apply for_range_all_events. intros so' node. unfold watch_node.
    repeat all_events_step.
Qed.

Lemma start_watches_quiet w b :
  sends (trace (start_watches w b)) = []
  ∧ calls (trace (start_watches w b)) = [].
Proof.
  pose proof (start_watches_bootstrap_events w b) as H.
  unfold all_events in H.
  induction H as [|e tr He _ [IH1 IH2]]; [done|].
  destruct e; try done.
Qed.

Lemma not_send_sends tr : Forall not_send tr → sends tr = [].
Proof.
  induction 1 as [|e tr He _ IH]; [done|].
  destruct e; simpl in He; try done; exact IH.
Qed.

Lemma preflight_no_send w : all_events not_send (preflight w).
Proof. unfold preflight, log_Fatal, log, os_Exit. repeat all_events_step. Qed.

Lemma connect_no_send fuel w client i :
  all_events not_send (connect fuel w client i).
Proof.
  revert i. induction fuel as [|fuel IH]; intros i; cbn [connect].
  - apply all_events_halt.
  - unfold log. repeat first [apply IH | all_events_step].
Qed.

Lemma discover_no_send w config client :
  all_events not_send (discover w config client).
Proof. unfold discover, log_Fatal, log, os_Exit. repeat all_events_step. Qed.

Lemma startup_no_send fuel w : all_events not_send (startup fuel w).
Proof.
  unfold startup. apply all_events_bind; [apply preflight_no_send|].
  intros [[config handlers] client].
  apply all_events_bind; [apply connect_no_send|]; intros _.
  apply all_events_bind;
    [unfold registerTestServices; repeat all_events_step|]; intros _.
  apply all_events_bind; [unfold log; repeat all_events_step|]; intros _.
  apply all_events_bind; [apply discover_no_send|]; intros [services nodes].
  apply all_events_ret.
Qed.

Lemma unknown_signals_quiet sigs :
  sends (unknown_signals sigs) = [] ∧ calls (unknown_signals sigs) = [].
Proof. induction sigs as [|sig sigs [IH1 IH2]]; [done|]. by split. Qed.

Lemma serve_signals_run w b opts :
  serve_signals w b opts
  = ([EvMakeChan 1%nat; EvNotify]
       ++ trace (signal_loop w b opts (signals w)),
     outcome (signal_loop w b opts (signals w))).
Proof.
  unfold serve_signals, emit. cbn [mbind Proc_bind].
  by destruct (signal_loop w b opts (signals w)).
Qed.

(** A run that gets through the start-up: its trace and how it stands. *)
Lemma main_booted fuel w b :
  outcome (startup fuel w) = Next b →
  ∃ tr so,
    start_watches w b = (tr, Next so)
    ∧ ShutdownOpts.stopCh so = 0%nat
    ∧ ShutdownOpts.count so
      = GoInt.wrap (Z.of_nat (length
          (filter (λ g, registered 0%nat g) (spawned (trace (main fuel w))))))
    ∧ main fuel w
      = (trace (startup fuel w) ++ tr ++ [EvMakeChan 1%nat; EvNotify]
           ++ trace (signal_loop w b so (signals w)),
         outcome (signal_loop w b so (signals w))).
Proof.
  intros Hb.
  destruct (start_watches_run w b) as (tr & so & Hrun & _ & Hch & Hcount).
  exists tr, so. rewrite main_spawned, Hb.
  split; [done|]. split; [done|]. split; [done|].
  by rewrite main_run, Hb, Hrun, outcome_pair, trace_pair, serve_signals_run.
Qed.

(** X12: in a run that gets through the start-up and in which, after
    signals the switch does not know, SIGINT, SIGTERM or SIGQUIT arrives,
    the sends of the whole run are two on the stop channel for each watch
    that was handed that channel, and the process exits with status 0,
    when the watches receive that many. *)
Theorem X12_run_sends_two_per_registered_watch fuel w b pre sig rest :
  booted fuel w = Some b →
  signals w = pre ++ sig :: rest →
  Forall (λ s, s ∉ [SIGINT; SIGTERM; SIGQUIT]) pre →
  sig ∈ [SIGINT; SIGTERM; SIGQUIT] →
  let n := length (filter (λ g, registered 0%nat g)
                     (spawned (trace (main fuel w)))) in
  Z.of_nat n < 2 ^ 62 →
  (2 * n ≤ stop_receives w)%nat →
  outcome (main fuel w) = Halt (Exited 0)
  ∧ sends (trace (main fuel w)) = replicate (2 * n) 0%nat.
Proof.
  intros Hb%booted_Some Hsigs Hpre Hsig n Hn Hrecv.
  destruct (main_booted fuel w b Hb) as (tr & so & Hrun & Hch & Hcount & Hmain).
  fold n in Hcount.
  assert (Hstop : stop_signals so = (2 * n)%nat).
  { apply Nat2Z.inj. rewrite stop_signals_spec.
    - rewrite Hcount, wrap_in_range by (unfold GoInt.in_range; lia). lia.
    - rewrite Hcount, wrap_in_range by (unfold GoInt.in_range; lia). lia. }
  assert (Htr : sends tr = []).
  { pose proof (start_watches_quiet w b) as [Hs _].
    by rewrite Hrun, trace_pair in Hs. }
  clearbody n. rewrite Hmain, outcome_pair, trace_pair, Hsigs.
  rewrite signal_loop_unknown, outcome_pair, trace_pair by done.
  rewrite signal_loop_termination, outcome_pair, trace_pair by done.
  rewrite shutdown_run, outcome_pair, trace_pair, Hstop, Hch.
  rewrite bool_decide_eq_true_2 by done. split; [done|].
  rewrite !sends_app, (not_send_sends _ (startup_no_send fuel w)), Htr.
  destruct (unknown_signals_quiet pre) as [-> _].
  change (?e :: ?e' :: ?l ++ ?e'' :: ?l')
    with ([e; e'] ++ l ++ [e''] ++ l').
  rewrite !sends_app, sends_deregistrations, sends_replicate.
  rewrite Nat.min_l by done. reflexivity.
Qed.

Lemma X12_run_sends_two_per_registered_watch_witness :
  let n := length (filter (λ g, registered 0%nat g)
                     (spawned (trace (main 1 w_agent)))) in
  outcome (main 1 w_agent) = Halt (Exited 0)
  ∧ sends (trace (main 1 w_agent)) = replicate (2 * n) 0%nat.
Proof.
  apply (X12_run_sends_two_per_registered_watch 1 w_agent b_agent
           [1] SIGINT []).
  - vm_compute. reflexivity.
  - reflexivity.
  - apply (bool_decide_unpack
             (Forall (λ s, s ∉ [SIGINT; SIGTERM; SIGQUIT]) [1])).
    vm_compute. exact I.
  - left.
  - vm_compute. reflexivity.
  - vm_compute. lia.
Defined.

(** X13: in a run that gets through the start-up and receives only
    signals the switch does not know, the process neither exits nor
    blocks: it is back in the loop waiting for the next signal, it has
    sent nothing on the stop channel and it has deregistered nothing. *)
Theorem X13_unknown_signals_keep_running fuel w b :
  booted fuel w = Some b →
  Forall (λ s, s ∉ [SIGINT; SIGTERM; SIGQUIT]) (signals w) →
  outcome (main fuel w) = Halt Waiting
  ∧ sends (trace (main fuel w)) = []
  ∧ fixtures_deregistered (trace (main fuel w)) = [].
Proof.
  intros Hb%booted_Some Hsigs.
  destruct (main_booted fuel w b Hb) as (tr & so & Hrun & _ & _ & Hmain).
  pose proof (start_watches_quiet w b) as [Hs Hc].
  rewrite Hrun, trace_pair in Hs, Hc.
  rewrite Hmain, outcome_pair, trace_pair.
  rewrite <- (app_nil_r (signals w)).
  rewrite signal_loop_unknown, outcome_pair, trace_pair by done.
  cbn [signal_loop]. unfold halt. rewrite outcome_pair, trace_pair, app_nil_r.
  destruct (unknown_signals_quiet (signals w)) as [Hus Huc].
  split; [done|]. split.
  - rewrite !sends_app, (not_send_sends _ (startup_no_send fuel w)), Hs, Hus.
    done.
  - destruct (startup_trace fuel w b Hb)
      as (before & after & -> & Hbefore & Hafter).
    apply not_fixture_quiet in Hbefore as (_ & Hb2 & _).
    apply not_fixture_quiet in Hafter as (_ & Ha2 & _).
    destruct (registerTestServices_run (b_client b))
      as (reg & Hreg & _ & Hr2 & _).
    rewrite !fixtures_deregistered_app, Hb2, Ha2, Hreg, trace_pair.
    unfold fixtures_deregistered at 2 3 4.
    rewrite Hc, Huc. simpl.
    destruct (Config.DevMode (b_config b)); [by rewrite Hr2|done].
Qed.

Lemma X13_unknown_signals_keep_running_witness :
  outcome (main 1 w_hangups) = Halt Waiting
  ∧ sends (trace (main 1 w_hangups)) = []
  ∧ fixtures_deregistered (trace (main 1 w_hangups)) = [].
Proof.
  apply (X13_unknown_signals_keep_running 1 w_hangups
           {| b_config := cfg true true; b_handlers := ["stdout"];
              b_client := {| Address := "127.0.0.1:8500" |};
              b_services := {["web" := ["a"]]}; b_nodes := ["node1"] |}).
  - vm_compute. reflexivity.
  - apply (bool_decide_unpack
             (Forall (λ s, s ∉ [SIGINT; SIGTERM; SIGQUIT]) (signals w_hangups))).
    vm_compute. exact I.
Defined.

(** ** How a run can end *)

Lemma exits_within_bind {A B} codes (m : Proc A) (f : A → Proc B) :
  exits_within codes m → (∀ a, exits_within codes (f a)) →
  exits_within codes (m ≫= f).
Proof.
  unfold exits_within. rewrite outcome_bind. intros Hm Hf.
  destruct (outcome m) as [a|s]; [apply Hf|exact Hm].
Qed.

Lemma exits_within_Next {A} codes (p : Proc A) a :
  outcome p = Next a → exits_within codes p.
Proof. unfold exits_within. by intros ->. Qed.

Lemma never_returns_bind {A B} (m : Proc A) (f : A → Proc B) :
  (∀ a, never_returns (f a)) → never_returns (m ≫= f).
Proof.
  unfold never_returns. rewrite outcome_bind. intros Hf.
  destruct (outcome m) as [a|s]; [apply Hf|exact I].
Qed.

(** One step through a straight-line piece of the program for the exit
    statuses 0, 1 and 2. *)
Ltac exits_step :=
  first
    [ eapply exits_within_Next; reflexivity
    | apply exits_within_bind; [|intros]
    | match goal with
      | |- exits_within _ (match ?x with _ => _ end) => destruct x
      | |- exits_within _ (let '(_, _) := ?x in _) => destruct x
      end
    | unfold exits_within, os_Exit, halt, outcome; cbn [snd];
      repeat constructor ].

Lemma preflight_exits w : exits_within [0; 1; 2] (preflight w).
Proof. unfold preflight, log_Fatal, log. repeat exits_step. Qed.

Lemma connect_exits fuel w client i :
  exits_within [0; 1; 2] (connect fuel w client i).
Proof.
  revert i. induction fuel as [|fuel IH]; intros i; cbn [connect].
  - exact I.
  - unfold log. repeat first [apply IH | exits_step].
Qed.

Lemma discover_exits w config client :
  exits_within [0; 1; 2] (discover w config client).
Proof. unfold discover, log_Fatal, log. repeat exits_step. Qed.

Lemma startup_exits fuel w : exits_within [0; 1; 2] (startup fuel w).
Proof.
  unfold startup. apply exits_within_bind; [apply preflight_exits|].
  intros [[config handlers] client].
  apply exits_within_bind; [apply connect_exits|]; intros _.
  apply exits_within_bind;
    [destruct (Config.DevMode config); by eapply exits_within_Next|];
    intros _.
  apply exits_within_bind;
    [destruct (Config.GlobalMode config); by eapply exits_within_Next|];
    intros _.
  apply exits_within_bind; [apply discover_exits|]; intros [services nodes].
  by eapply exits_within_Next.
Qed.

Lemma signal_loop_ends w b opts sigs :
  never_returns (signal_loop w b opts sigs)
  ∧ exits_within [0; 1; 2] (signal_loop w b opts sigs).
Proof.
  induction sigs as [|sig sigs [IHn IHe]]; [done|].
  cbn [signal_loop]. split.
  - apply never_returns_bind. intros _. by apply never_returns_bind.
  - apply exits_within_bind; [by eapply exits_within_Next|]. intros _.
    apply exits_within_bind; [|done].
    unfold handle_signal. repeat case_decide;
      try (unfold exits_within; rewrite shutdown_run, outcome_pair;
           case_bool_decide; [left|exact I]).
    by eapply exits_within_Next.
Qed.

(** X14: main never returns, and a run that ends in an exit ends with
    status 0, 1 or 2: whatever the world answers, a run stands in the
    leader loop, in the signal loop, in a send of [shutdown], or has
    exited with one of these three statuses. *)
Theorem X14_main_ends_with_status_0_1_or_2 fuel w :
  ∃ s, outcome (main fuel w) = Halt s
       ∧ ∀ code, s = Exited code → code = 0 ∨ code = 1 ∨ code = 2.
Proof.
  assert (Hn : never_returns (main fuel w)).
  { unfold main. apply never_returns_bind. intros b.
    apply never_returns_bind. intros so.
    unfold never_returns. rewrite serve_signals_run, outcome_pair.
    apply signal_loop_ends. }
  assert (He : exits_within [0; 1; 2] (main fuel w)).
  { unfold main. apply exits_within_bind; [apply startup_exits|]. intros b.
    apply exits_within_bind.
    - destruct (start_watches_run w b) as (tr & so & Hrun & _).
      eapply exits_within_Next. by rewrite Hrun.
    - intros so. unfold exits_within.
      rewrite serve_signals_run, outcome_pair. apply signal_loop_ends. }
  unfold never_returns in Hn. unfold exits_within in He.
  destruct (outcome (main fuel w)) as [[]|s]; [done|].
  exists s. split; [done|]. intros code ->.
  repeat (apply elem_of_cons in He as [->|He]; [tauto|]).
  by apply elem_of_nil in He.
Qed.

(** ** What an exit status tells *)

Lemma exit_cause_app_r tr1 tr2 code :
  exit_cause tr2 code → exit_cause (tr1 ++ tr2) code.
Proof.
  intros [[-> [Hp|(sig & Hsig & Hin)]]|[-> (msg & args & Hin)]].
  - left. split; [done|]. left. apply elem_of_app. by right.
  - left. split; [done|]. right. exists sig. split; [done|].
    apply elem_of_app. by right.
  - right. split; [done|]. exists msg, args. apply elem_of_app. by right.
Qed.

Lemma exits_with_cause_bind {A B} (m : Proc A) (f : A → Proc B) :
  exits_with_cause m → (∀ a, exits_with_cause (f a)) →
  exits_with_cause (m ≫= f).
Proof.
  unfold exits_with_cause. rewrite outcome_bind, trace_bind.
  intros Hm Hf code.
  destruct (outcome m) as [a|s].
  - intros H. by apply exit_cause_app_r, Hf.
  - intros [= ->]. rewrite app_nil_r. by apply Hm.
Qed.

Lemma exits_with_cause_Next {A} (p : Proc A) a :
  outcome p = Next a → exits_with_cause p.
Proof. intros Hp code. by rewrite Hp. Qed.

Lemma exits_with_cause_stuck {A} (p : Proc A) s :
  outcome p = Halt s → (∀ code, s ≠ Exited code) → exits_with_cause p.
Proof. intros Hp Hs code. rewrite Hp. intros [= ->]. by destruct (Hs code). Qed.

Lemma log_Fatal_cause {A} msg args : exits_with_cause (@log_Fatal A msg args).
Proof.
  intros code [= <-]. right. split; [done|]. exists msg, args. left.
Qed.

Lemma connect_cause fuel w client i :
  exits_with_cause (connect fuel w client i).
Proof.
  revert i. induction fuel as [|fuel IH]; intros i; cbn [connect].
  - by eapply exits_with_cause_stuck.
  - apply exits_with_cause_bind; [by eapply exits_with_cause_Next|].
    intros _. destruct (Leader w i); [|by eapply exits_with_cause_Next].
    repeat (apply exits_with_cause_bind;
            [by eapply exits_with_cause_Next|]; intros _).
    apply IH.
Qed.

Lemma discover_cause w config client :
  exits_with_cause (discover w config client).
Proof.
  unfold discover.
  repeat first
    [ apply log_Fatal_cause
    | eapply exits_with_cause_Next; reflexivity
    | apply exits_with_cause_bind; [|intros]
    | match goal with
      | |- exits_with_cause (match ?x with _ => _ end) => destruct x
      end ].
Qed.

Lemma signal_loop_cause w b opts sigs :
  exits_with_cause (signal_loop w b opts sigs).
Proof.
  induction sigs as [|sig sigs IH].
  - by eapply exits_with_cause_stuck.
  - destruct (decide (sig ∈ [SIGINT; SIGTERM; SIGQUIT])) as [Hsig|Hsig].
    + rewrite signal_loop_termination by done. intros code.
      rewrite outcome_pair, trace_pair, shutdown_run, outcome_pair.
      case_bool_decide; [|done]. intros [= <-].
      left. split; [done|]. right. exists sig. split; [done|left].
    + cbn [signal_loop]. rewrite handle_signal_unknown by done.
      repeat (apply exits_with_cause_bind;
              [by eapply exits_with_cause_Next|]; intros _).
      exact IH.
Qed.

(** After the client is built: lines 67-192. *)
Lemma after_preflight_cause fuel w config handlers client :
  exits_with_cause
    ((connect fuel w client 0 ;;;
      (if Config.DevMode config then registerTestServices client
       else mret tt) ;;;
      (if Config.GlobalMode config
       then log InfoLevel
              "Running in global mode, monitoring all nodes/services" []
       else log InfoLevel
              "Running in local mode, monitoring local agent's nodes/services"
              []) ;;;
      '(services, nodes) ← discover w config client;
      mret {| b_config := config; b_handlers := handlers;
              b_client := client; b_services := services;
              b_nodes := nodes |})
     ≫= λ b, shutdownOpts ← start_watches w b;
             serve_signals w b shutdownOpts).
Proof.
  apply exits_with_cause_bind.
  - apply exits_with_cause_bind; [apply connect_cause|]; intros _.
    apply exits_with_cause_bind;
      [destruct (Config.DevMode config); by eapply exits_with_cause_Next|];
      intros _.
    apply exits_with_cause_bind;
      [destruct (Config.GlobalMode config); by eapply exits_with_cause_Next|];
      intros _.
    apply exits_with_cause_bind; [apply discover_cause|].
    intros [services nodes]. by eapply exits_with_cause_Next.
  - intros b. apply exits_with_cause_bind.
    + destruct (start_watches_run w b) as (tr & so & Hrun & _).
      eapply exits_with_cause_Next. by rewrite Hrun.
    + intros so. rewrite serve_signals_run. intros code.
      rewrite outcome_pair, trace_pair. intros H.
      by apply exit_cause_app_r, signal_loop_cause.
Qed.

Lemma preflight_cause w code :
  outcome (preflight w) = Halt (Exited code) →
  code = 2 ∨ exit_cause (trace (preflight w)) code.
Proof.
  unfold preflight.
  destruct (flag_Parse w) as [[help config_path]|]; [|intros [= <-]; by left].
  destruct (help || bool_decide (config_path = "")) eqn:Hcond.
  { cbn. rewrite Hcond. intros [= <-]. right. left.
    split; [done|]. left. cbn. do 2 right. left. }
  cbn. rewrite Hcond. cbn.
  destruct (ParseConfig w config_path) as [[config handlers]|err];
    [|intros [= <-]; by left].
  cbn. destruct (ParseLevel w (Config.LogLevel config)) as [level [err|]];
    [intros [= <-]; by left|].
  cbn. destruct (NewClient w (Config.ConsulAddress config)) as [err|];
    [|done].
  intros [= <-]. right. right. split; [done|].
  eexists _, _. cbn. do 5 right. left.
Qed.

(** X15: the exit status tells why the process ended. Status 0: the usage
    text was printed, or SIGINT, SIGTERM or SIGQUIT was received. Status
    1: an entry was logged with [log.Fatal]. Status 2: the process ended
    before it made any request to the registry and before it started any
    goroutine. *)
Theorem X15_exit_status_tells_the_cause fuel w code :
  outcome (main fuel w) = Halt (Exited code) →
  exit_cause (trace (main fuel w)) code
  ∨ (code = 2
     ∧ calls (trace (main fuel w)) = []
     ∧ spawned (trace (main fuel w)) = []).
Proof.
  unfold main, startup.
  set (rest := λ cfg : Config.t * Handlers * Client, _).
  set (k := λ b : Booted, _).
  rewrite !trace_bind, !outcome_bind.
  pose proof (preflight_cause w) as Hpre.
  pose proof (preflight_no_call w) as Hcalls.
  pose proof (preflight_no_go w) as Hgo.
  destruct (outcome (preflight w)) as [[[config handlers] client]|s].
  - intros Hexit. left. rewrite <- app_assoc. apply exit_cause_app_r.
    pose proof (after_preflight_cause fuel w config handlers client code)
      as Hafter.
    rewrite outcome_bind, trace_bind in Hafter. exact (Hafter Hexit).
  - intros [= ->]. rewrite !app_nil_r.
    destruct (Hpre code eq_refl) as [->|Hcause]; [right|by left].
    split; [done|]. split; [by apply not_call_calls|by apply not_go_spawned].
Qed.

Lemma X15_exit_status_tells_the_cause_witness :
  exit_cause (trace (main 1 w_no_services)) 1
  ∨ (1 = 2
     ∧ calls (trace (main 1 w_no_services)) = []
     ∧ spawned (trace (main 1 w_no_services)) = []).
Proof.
  apply (X15_exit_status_tells_the_cause 1 w_no_services 1).
  vm_compute. reflexivity.
Defined.
